(** * Projectile trajectory calculator: [projectile.py] in Rocq

    A shallow embedding of the two classes of [projectile.py], [Projectile]
    and [Graph], followed by the properties of the specification checked
    against them and by further properties of the code: its errors, its edge
    cases and how its methods compose.

    Python values are modelled as the interpreter has them:
    - a Python [float] is an IEEE 754 binary64 number, Rocq's primitive
      [float]; the arithmetic operators are the primitive ones (round to
      nearest, ties to even) and never raise, except division by zero;
    - a Python [int] is a [Z];
    - a Python [str] is a list of Unicode code points;
    - a raised exception is the [Raise] outcome of the [result] monad;
    - the C library functions [sin], [cos], [tan] and [pow], whose results
      differ from one platform to the next, are the fields of a [Libm]
      record that the [Projectile] computations take as a parameter. *)

From Stdlib Require Import ZArith List Floats Lia Bool String Ascii.
From stdpp Require Import base list.

#[local] Set Warnings "-inexact-float".
#[local] Open Scope Z_scope.

(** ** Exceptions and the result monad *)

(** The exceptions this program can raise, each with the message CPython
    attaches to it. *)
Inductive exn : Set :=
| ValueError_math_domain      (* ValueError: math domain error *)
| ValueError_nan_to_int       (* ValueError: cannot convert float NaN to integer *)
| ValueError_max_empty        (* ValueError: max() arg is an empty sequence *)
| OverflowError_int_too_large (* OverflowError: int too large to convert to float *)
| OverflowError_inf_to_int    (* OverflowError: cannot convert float infinity to integer *)
| OverflowError_result_range  (* OverflowError: (34, 'Numerical result out of range') *)
| ZeroDivisionError_float     (* ZeroDivisionError: float division by zero *)
| IndexError_list.            (* IndexError: list index out of range *)

Inductive result (A : Type) : Type :=
| Ok (a : A)
| Raise (e : exn).
Arguments Ok {A} a.
Arguments Raise {A} e.

#[global] Instance result_ret : MRet result := @Ok.
#[global] Instance result_bind : MBind result := λ A B f m,
  match m with Ok a => f a | Raise e => Raise e end.
#[global] Instance result_fmap : FMap result := λ A B f m,
  match m with Ok a => Ok (f a) | Raise e => Raise e end.

Definition returns {A} (m : result A) : Prop := ∃ a, m = Ok a.
Definition raises {A} (m : result A) : Prop := ∃ e, m = Raise e.

(** ** Strings *)

(** A [str] is the list of its code points. *)
Definition str : Type := list N.

(** An ASCII literal as a [str]. *)
Fixpoint lit (s : string) : str :=
  match s with
  | EmptyString => []
  | String a s' => N_of_ascii a :: lit s'
  end.

Definition newline : str := [10%N].

(** [sep.join(parts)] *)
Fixpoint join (sep : str) (parts : list str) : str :=
  match parts with
  | [] => []
  | [p] => p
  | p :: ps => p ++ sep ++ join sep ps
  end.

(** [s * n] for a string [s] and an int [n]: the empty string when [n <= 0]. *)
Definition str_repeat (s : str) (n : Z) : str :=
  concat (replicate (Z.to_nat n) s).

(** [format(s, '>w')]: pad with spaces on the left up to [w] code points;
    a longer string is left as it is. *)
Definition rjust (w : nat) (s : str) : str :=
  replicate (w - length s)%nat 32%N ++ s.

Definition digit_code (d : Z) : N := (48 + Z.to_N d)%N.

Fixpoint uint_digits (u : Decimal.uint) : str :=
  match u with
  | Decimal.Nil => []
  | Decimal.D0 u => 48%N :: uint_digits u
  | Decimal.D1 u => 49%N :: uint_digits u
  | Decimal.D2 u => 50%N :: uint_digits u
  | Decimal.D3 u => 51%N :: uint_digits u
  | Decimal.D4 u => 52%N :: uint_digits u
  | Decimal.D5 u => 53%N :: uint_digits u
  | Decimal.D6 u => 54%N :: uint_digits u
  | Decimal.D7 u => 55%N :: uint_digits u
  | Decimal.D8 u => 56%N :: uint_digits u
  | Decimal.D9 u => 57%N :: uint_digits u
  end.

(** [str(n)] for an int [n]. *)
Definition str_of_int (n : Z) : str :=
  match n with
  | Zneg p => lit "-" ++ uint_digits (Pos.to_uint p)
  | _ => uint_digits (N.to_uint (Z.to_N n))
  end.

(** ** Numbers *)

(** The numbers a caller can pass for speed, height and angle. *)
Inductive pynum : Set :=
| PyInt (z : Z)
| PyFloat (f : float).

(** The nearest binary64 number to an integer (ties to even); infinite when
    the integer is beyond the binary64 range. *)
Definition float_of_Z (z : Z) : float :=
  SF2Prim (binary_normalize prec emax z 0 false).

(** Conversion of an [int] operand to [float] ([PyLong_AsDouble]). *)
Definition PyLong_AsDouble (z : Z) : result float :=
  let f := float_of_Z z in
  if is_infinity f then Raise OverflowError_int_too_large else Ok f.

(** Conversion of a number to [float] ([PyFloat_AsDouble]), as the [math]
    functions and the mixed [int]/[float] operators do. *)
Definition PyFloat_AsDouble (x : pynum) : result float :=
  match x with
  | PyInt z => PyLong_AsDouble z
  | PyFloat f => Ok f
  end.

(** [a * b] *)
Definition py_mul (a b : pynum) : result pynum :=
  match a, b with
  | PyInt x, PyInt y => Ok (PyInt (x * y))
  | _, _ => x ← PyFloat_AsDouble a; y ← PyFloat_AsDouble b; Ok (PyFloat (x * y)%float)
  end.

(** [a * b], [a + b] where one operand is known to be a [float]: the result
    is a [float]. *)
Definition py_mul_float (a : pynum) (b : float) : result float :=
  x ← PyFloat_AsDouble a; Ok (x * b)%float.

Definition float_mul_py (a : float) (b : pynum) : result float :=
  y ← PyFloat_AsDouble b; Ok (a * y)%float.

Definition py_add_float (a : pynum) (b : float) : result float :=
  x ← PyFloat_AsDouble a; Ok (x + b)%float.

(** [a / b] on floats: [float_div] of CPython. *)
Definition float_truediv (a b : float) : result float :=
  if (b =? 0)%float then Raise ZeroDivisionError_float else Ok (a / b)%float.

(** Nearest integer to [m / d] for [0 < d], ties to the even one. *)
Definition div_half_even (m d : Z) : Z :=
  let q := m / d in
  match 2 * (m mod d) ?= d with
  | Lt => q
  | Gt => q + 1
  | Eq => if Z.even q then q else q + 1
  end.

(** Least integer not below [m / d] for [0 < d]. *)
Definition div_ceil (m d : Z) : Z := - ((- m) / d).

Definition cond_opp (s : bool) (n : Z) : Z := if s then - n else n.

(** [round(x)] for a float [x] and no [ndigits]: the nearest integer, ties to
    even, as an [int]. *)
Definition py_round (x : float) : result Z :=
  match Prim2SF x with
  | S754_nan => Raise ValueError_nan_to_int
  | S754_infinity _ => Raise OverflowError_inf_to_int
  | S754_zero _ => Ok 0
  | S754_finite s m e =>
      Ok (cond_opp s
            match e with
            | Zneg p => div_half_even (Zpos m) (2 ^ Zpos p)
            | _ => Zpos m * 2 ^ e
            end)
  end.

(** [math.ceil(x)] for a float [x], as an [int]. *)
Definition math_ceil (x : float) : result Z :=
  match Prim2SF x with
  | S754_nan => Raise ValueError_nan_to_int
  | S754_infinity _ => Raise OverflowError_inf_to_int
  | S754_zero _ => Ok 0
  | S754_finite s m e =>
      Ok match e with
         | Zneg p => div_ceil (cond_opp s (Zpos m)) (2 ^ Zpos p)
         | _ => cond_opp s (Zpos m * 2 ^ e)
         end
  end.

(** [format(y, '.2f')] for a float [y]: the exact binary value rounded to two
    decimals, ties to even; the sign is the float's sign bit. *)
Definition format_2f (y : float) : str :=
  match Prim2SF y with
  | S754_nan => lit "nan"
  | S754_infinity s => (if s then lit "-" else []) ++ lit "inf"
  | S754_zero s => (if s then lit "-" else []) ++ lit "0.00"
  | S754_finite s m e =>
      let n := match e with
               | Zneg p => div_half_even (Zpos m * 100) (2 ^ Zpos p)
               | _ => Zpos m * 100 * 2 ^ e
               end in
      (if s then lit "-" else [])
        ++ str_of_int (n / 100) ++ lit "."
        ++ [digit_code (n mod 100 / 10); digit_code (n mod 10)]
  end.

(** ** The [math] module *)

Definition Py_MATH_PI : float := 3.14159265358979323846%float.
Definition degToRad : float := (Py_MATH_PI / 180)%float.
Definition radToDeg : float := (180 / Py_MATH_PI)%float.

(** [math.radians(x)], [math.degrees(x)] *)
Definition math_radians (x : pynum) : result float :=
  f ← PyFloat_AsDouble x; Ok (f * degToRad)%float.

Definition math_degrees (x : float) : float := (x * radToDeg)%float.

(** [math_1]: the wrapper of [mathmodule.c] around a one-argument C function
    that cannot overflow. A NaN result from a non-NaN argument and an
    infinite result from a finite argument are domain errors; [errno] is not
    consulted on a finite result. *)
Definition math_1 (func : float → float) (x : float) : result float :=
  let r := func x in
  if is_nan r && negb (is_nan x) then Raise ValueError_math_domain
  else if is_infinity r && is_finite x then Raise ValueError_math_domain
  else Ok r.

Definition math_sqrt : float → result float := math_1 PrimFloat.sqrt.

(** The platform's C library. *)
Record Libm : Set := {
  c_sin : float → float;
  c_cos : float → float;
  c_tan : float → float;
  c_pow : float → float → float
}.

Definition math_sin (libm : Libm) : float → result float := math_1 (c_sin libm).
Definition math_cos (libm : Libm) : float → result float := math_1 (c_cos libm).
Definition math_tan (libm : Libm) : float → result float := math_1 (c_tan libm).

(** [iv ** 2] for a float [iv]: [float_pow] of CPython at the exponent [2.0],
    the only one this program uses. NaN, the infinities, zero and one are
    answered before the C library is asked. The error [pow] reports through
    [errno] is read off its result: an infinite one is a range error, a NaN
    one a domain error. *)
Definition float_pow_2 (libm : Libm) (iv : float) : result float :=
  if is_nan iv then Ok iv
  else if is_infinity iv then Ok (abs iv)
  else if (iv =? 0)%float then Ok 0%float
  else
    let iv := if (iv <? 0)%float then (- iv)%float else iv in
    if (iv =? 1)%float then Ok 1%float
    else
      let ix := c_pow libm iv 2 in
      if is_nan ix then Raise ValueError_math_domain
      else if is_infinity ix then Raise OverflowError_result_range
      else Ok ix.

(** [x ** 2] for a number [x]: exact on an [int]. *)
Definition py_pow_2 (libm : Libm) (x : pynum) : result pynum :=
  match x with
  | PyInt z => Ok (PyInt (z ^ 2))
  | PyFloat f => PyFloat <$> float_pow_2 libm f
  end.

(** [range(n)] *)
Definition range (n : Z) : list Z := Z.of_nat <$> seq 0 (Z.to_nat n).

(** ** Module constants *)

Definition GRAVITATIONAL_ACCELERATION : float := 9.81%float.
Definition PROJECTILE : str := [8729%N].  (* U+2219, bullet operator *)
Definition x_axis_tick : str := lit "T".
Definition y_axis_tick : str := [8867%N]. (* U+22A3, left tack *)

(** ** class Projectile *)

Module Projectile.

(** The three slots: speed and height as the caller gave them, the angle in
    radians. *)
Record t : Set := {
  __speed : pynum;
  __height : pynum;
  __angle : float
}.

Definition __init__ (speed height angle : pynum) : result t :=
  a ← math_radians angle;
  Ok {| __speed := speed; __height := height; __angle := a |}.

(** The properties and their setters. *)
Definition height (self : t) : pynum := __height self.

Definition angle (self : t) : result Z :=
  py_round (math_degrees (__angle self)).

Definition speed (self : t) : pynum := __speed self.

Definition set_height (self : t) (n : pynum) : t :=
  {| __speed := __speed self; __height := n; __angle := __angle self |}.

Definition set_angle (self : t) (n : pynum) : result t :=
  a ← math_radians n;
  Ok {| __speed := __speed self; __height := __height self; __angle := a |}.

Definition set_speed (self : t) (s : pynum) : t :=
  {| __speed := s; __height := __height self; __angle := __angle self |}.

Section Kinematics.
Context (libm : Libm).

Definition __calculate_displacement (self : t) : result float :=
  c ← math_cos libm (__angle self);
  horizontal_component ← py_mul_float (__speed self) c;
  s ← math_sin libm (__angle self);
  vertical_component ← py_mul_float (__speed self) s;
  squared_component ← float_pow_2 libm vertical_component;
  gh_component ← float_mul_py (2 * GRAVITATIONAL_ACCELERATION) (__height self);
  sqrt_component ← math_sqrt (squared_component + gh_component);
  float_truediv (horizontal_component * (vertical_component + sqrt_component))
                GRAVITATIONAL_ACCELERATION.

(** [x] is an [int]: the method is private and its one caller,
    [calculate_all_coordinates], passes the elements of a [range]. *)
Definition __calculate_y_coordinate (self : t) (x : Z) : result float :=
  let height_component := __height self in
  t ← math_tan libm (__angle self);
  angle_component ← float_mul_py t (PyInt x);
  numerator ← float_mul_py GRAVITATIONAL_ACCELERATION (PyInt (x ^ 2));
  speed_squared ← py_pow_2 libm (__speed self);
  twice ← py_mul (PyInt 2) speed_squared;
  c ← math_cos libm (__angle self);
  cos_squared ← float_pow_2 libm c;
  denominator ← py_mul_float twice cos_squared;
  acceleration_component ← float_truediv numerator denominator;
  y_coordinate ← py_add_float height_component angle_component;
  Ok (y_coordinate - acceleration_component)%float.

Definition calculate_all_coordinates (self : t) : result (list (Z * float)) :=
  displacement ← __calculate_displacement self;
  n ← math_ceil displacement;
  mapM (λ x, y ← __calculate_y_coordinate self x; Ok (x, y)) (range n).

End Kinematics.
End Projectile.

(** ** Lists *)

(** The position an index [i] denotes in a list of length [len]: a negative
    index counts from the end; out of range is an [IndexError]. *)
Definition list_index (len : nat) (i : Z) : result nat :=
  let j := if i <? 0 then i + Z.of_nat len else i in
  if (j <? 0) || (Z.of_nat len <=? j) then Raise IndexError_list
  else Ok (Z.to_nat j).

(** [l[i]] *)
Definition getitem {A} (l : list A) (i : Z) : result A :=
  j ← list_index (length l) i;
  match l !! j with
  | Some a => Ok a
  | None => Raise IndexError_list
  end.

(** [l[i] = a] *)
Definition setitem {A} (l : list A) (i : Z) (a : A) : result (list A) :=
  j ← list_index (length l) i;
  Ok (<[j := a]> l).

(** [max(l, key=key)]: the first element whose key no later one exceeds. *)
Definition py_max {A} (key : A → Z) (l : list A) : result A :=
  match l with
  | [] => Raise ValueError_max_empty
  | a :: l' =>
      Ok (fold_left (λ best item, if key best <? key item then item else best) l' a)
  end.

(** A [for] loop over [l] whose body updates [acc] and can raise. *)
Fixpoint for_each {A S} (body : S → A → result S) (l : list A) (acc : S) : result S :=
  match l with
  | [] => Ok acc
  | a :: l' => acc' ← body acc a; for_each body l' acc'
  end.

(** [round(x)] for an int [x] is [x]. *)
Definition int_round (x : Z) : Z := x.

(** ** class Graph *)

Module Graph.

(** The points are those [Projectile.calculate_all_coordinates] returns: [x]
    an [int], [y] a [float]. *)
Record t : Set := { __coordinates : list (Z * float) }.

Definition __init__ (coord : list (Z * float)) : t := {| __coordinates := coord |}.

Definition create_coordinates_table (self : t) : str :=
  fold_left
    (λ table '(x, y),
       table ++ rjust 3 (str_of_int x) ++ rjust 7 (format_2f y) ++ newline)
    (__coordinates self)
    (newline ++ lit "  x      y" ++ newline).

(** [[(round(x), round(y)) for x, y in self.__coordinates]] *)
Definition rounded_coords (self : t) : result (list (Z * Z)) :=
  mapM (λ '(x, y), ry ← py_round y; Ok (int_round x, ry)) (__coordinates self).

(** [matrix_list[-1 - y][x] = PROJECTILE]: the row at index [-1 - y] is
    fetched and updated in place at index [x]; no two rows of the grid are
    the same object, so the grid changes in that row alone. *)
Definition mark (matrix_list : list (list str)) (p : Z * Z) : result (list (list str)) :=
  let '(x, y) := p in
  row ← getitem matrix_list (-1 - y);
  row' ← setitem row x PROJECTILE;
  setitem matrix_list (-1 - y) row'.

(** The grid of [create_trajectory] once every point is marked: its lines 169
    to 177. *)
Definition matrix_list (self : t) : result (list (list str)) :=
  rounded_coords ← rounded_coords self;
  x_max ← fst <$> py_max fst rounded_coords;
  y_max ← snd <$> py_max snd rounded_coords;
  let matrix_list :=
    replicate (Z.to_nat (y_max + 1)) (replicate (Z.to_nat (x_max + 1)) (lit " ")) in
  for_each mark rounded_coords matrix_list.

(** The text drawn from the grid: lines 179 to 184. *)
Definition draw (matrix_list : list (list str)) : result str :=
  let matrix := (λ line, concat line) <$> matrix_list in
  let matrix_axes := (λ row, y_axis_tick ++ row) <$> matrix in
  first ← getitem matrix 0;
  let matrix_axes :=
    matrix_axes ++ [lit " " ++ str_repeat x_axis_tick (Z.of_nat (length first))] in
  Ok (newline ++ join newline matrix_axes ++ newline).

Definition create_trajectory (self : t) : result str :=
  matrix_list ← matrix_list self;
  draw matrix_list.

End Graph.

(** A C library that answers only where ISO C (Annex F) fixes the answer for
    every platform: [sin], [cos] and [tan] at zero. Anywhere else the
    trigonometric functions answer NaN, which [math_1] turns into an error.
    [pow(x, 2)] is the correctly rounded square. It serves to run the
    computations at the angle 0, where every platform agrees with it. *)
Definition libm_at_zero : Libm := {|
  c_sin x := if is_zero x then x else nan;
  c_cos x := if is_zero x then 1%float else nan;
  c_tan x := if is_zero x then x else nan;
  c_pow x y := (x * x)%float
|}.

(** The double nearest to π/2: the angle stored for 90 degrees. *)
Definition right_angle : float := 0x1.921fb54442d18p+0%float.

(** A C library that answers at zero as above and at [right_angle] with the
    correctly rounded values of sin, cos and tan there, which are those of
    glibc: 1, 6.123233995736766e-17 and 16331239353195370. It serves to run
    the computations at 90 degrees, where sin θ is not zero. *)
Definition libm_at_right_angle : Libm := {|
  c_sin x :=
    if is_zero x then x
    else if (x =? right_angle)%float then 1%float else nan;
  c_cos x :=
    if is_zero x then 1%float
    else if (x =? right_angle)%float then 0x1.1a62633145c07p-54%float else nan;
  c_tan x :=
    if is_zero x then x
    else if (x =? right_angle)%float then 0x1.d02967c31cdb5p+53%float else nan;
  c_pow x y := (x * x)%float
|}.

(** ** Reference definitions

    What the specification says, in the terms of the embedding. *)

(** The range formula,
    (v·cosθ) · (v·sinθ + sqrt((v·sinθ)² + 2·g·h)) / g,
    on the values of its parts. *)
Definition range_formula (v h cos_θ sin_θ v_sin_θ_squared : float) : float :=
  ((v * cos_θ)
   * (v * sin_θ
      + PrimFloat.sqrt (v_sin_θ_squared + 2 * GRAVITATIONAL_ACCELERATION * h))
   / GRAVITATIONAL_ACCELERATION)%float.

(** The square of a finite [x] as [x ** 2] evaluates it when it raises no
    error: zero for a zero, one for 1 and -1, and otherwise what the [pow]
    of the C library answers for |x| and 2. *)
Definition square_value (libm : Libm) (x : float) : float :=
  if (x =? 0)%float then 0%float
  else
    let a := if (x <? 0)%float then (- x)%float else x in
    if (a =? 1)%float then 1%float else c_pow libm a 2.

(** The trajectory equation, h + x·tanθ − g·x²/(2·v²·cos²θ), on the values of
    its parts; [den] is the denominator 2·v²·cos²θ. *)
Definition height_formula (h x x_squared tan_θ den : float) : float :=
  (h + x * tan_θ - GRAVITATIONAL_ACCELERATION * x_squared / den)%float.

(** The denominator 2·v²·cos²θ as Python evaluates it. *)
Definition denominator (libm : Libm) (self : Projectile.t) : result float :=
  speed_squared ← py_pow_2 libm (Projectile.__speed self);
  twice ← py_mul (PyInt 2) speed_squared;
  c ← math_cos libm (Projectile.__angle self);
  cos_squared ← float_pow_2 libm c;
  py_mul_float twice cos_squared.

(** [x == 0] for a number [x]. *)
Definition py_is_zero (x : pynum) : bool :=
  match x with
  | PyInt z => z =? 0
  | PyFloat f => (f =? 0)%float
  end.


(** Setting the angle to [d] and reading it back, [n + 1] times in a row:
    the last reading. *)
Fixpoint set_get_angle (n : nat) (self : Projectile.t) (d : pynum) : result Z :=
  self' ← Projectile.set_angle self d;
  reading ← Projectile.angle self';
  match n with
  | O => Ok reading
  | S n' => set_get_angle n' self' d
  end.

(** One data row of the coordinate table. *)
Definition table_row (p : Z * float) : str :=
  rjust 3 (str_of_int p.1) ++ rjust 7 (format_2f p.2) ++ newline.

(** The table as the specification words it: the header row, then the data
    rows, nothing before the header. *)
Definition table_as_specified (header : str) (coords : list (Z * float)) : str :=
  header ++ newline ++ concat (table_row <$> coords).

(** [m] is the greatest element of [l]. *)
Definition is_maximum (m : Z) (l : list Z) : Prop :=
  m ∈ l ∧ ∀ z, z ∈ l → z ≤ m.

(** The cell of a grid at a row and a column. *)
Definition cell (grid : list (list str)) (r c : nat) : option str :=
  row ← grid !! r; row !! c.

(** A finite binary64 value: a zero or a number. *)
Definition SF_is_finite (x : spec_float) : bool :=
  match x with
  | S754_zero _ | S754_finite _ _ _ => true
  | _ => false
  end.

(** The shape of a grid: [h] rows of [w] cells. *)
Definition grid_shape (h w : nat) (g : list (list str)) : Prop :=
  length g = h ∧ Forall (λ row, length row = w) g.



(** Two binary64 values that denote the same number: equal, or both a
    zero. *)
Definition same_number (a b : spec_float) : Prop :=
  a = b ∨ ∃ s s', a = S754_zero s ∧ b = S754_zero s'.

(** The position an index [i] in range denotes in a list of [len] items:
    [i + len] for a negative [i], as [list_index] computes it. *)
Definition wrap_index (len : nat) (i : Z) : nat :=
  Z.to_nat (if i <? 0 then i + Z.of_nat len else i).

(** The rounded point [p] is drawn at row [r], column [c] of a grid of [h]
    rows of [w] cells: the row is the one at index [-1 - y], the column the
    one at index [x]. *)
Definition lands_on (h w r c : nat) (p : Z * Z) : Prop :=
  wrap_index h (-1 - p.2) = r ∧ wrap_index w p.1 = c.

#[global] Instance lands_on_dec h w r c p : Decision (lands_on h w r c p) :=
  and_dec _ _.

(** The text of a grid of [w] columns: what lines 179 to 184 of
    [create_trajectory] make of it. *)
Definition grid_text (w : Z) (grid : list (list str)) : str :=
  newline
  ++ join newline
       (((λ row, y_axis_tick ++ row) <$> ((λ line, concat line) <$> grid))
        ++ [lit " " ++ str_repeat x_axis_tick w])
  ++ newline.

(** The number of line breaks in a text. *)
Definition line_breaks (s : str) : nat := count_occ N.eq_dec s 10%N.

(** ** Sample trajectories *)

(** [Projectile(1, 5, 0)] *)
Definition unit_projectile : Projectile.t :=
  {| Projectile.__speed := PyInt 1;
     Projectile.__height := PyInt 5;
     Projectile.__angle := 0 |}.

(** [Projectile(1, -5, 0)]: launched from below the reference plane. *)
Definition sunk_projectile : Projectile.t :=
  {| Projectile.__speed := PyInt 1;
     Projectile.__height := PyInt (-5);
     Projectile.__angle := 0 |}.

(** [Projectile(0, 5, 0)] *)
Definition still_projectile : Projectile.t :=
  {| Projectile.__speed := PyInt 0;
     Projectile.__height := PyInt 5;
     Projectile.__angle := 0 |}.

(** [Projectile(2.0 ** -600, 5, 0)]: a speed whose square underflows to
    zero. *)
Definition slow_projectile : Projectile.t :=
  {| Projectile.__speed := PyFloat 0x1p-600;
     Projectile.__height := PyInt 5;
     Projectile.__angle := 0 |}.

(** [Projectile(2.0 ** 1023, 2.0 ** 100, 0)]: a range beyond the binary64
    numbers. *)
Definition fast_projectile : Projectile.t :=
  {| Projectile.__speed := PyFloat 0x1p+1023;
     Projectile.__height := PyFloat 0x1p+100;
     Projectile.__angle := 0 |}.

(** [Projectile(3, 5, 90)] and [Projectile(3, -5, 90)]: straight up, from
    above and from below the reference plane. *)
Definition upright_projectile : Projectile.t :=
  {| Projectile.__speed := PyInt 3;
     Projectile.__height := PyInt 5;
     Projectile.__angle := right_angle |}.

Definition upright_sunk_projectile : Projectile.t :=
  {| Projectile.__speed := PyInt 3;
     Projectile.__height := PyInt (-5);
     Projectile.__angle := right_angle |}.

(** [Projectile(2.0 ** 600, 0, 90)]: a vertical speed whose square is
    beyond the binary64 numbers. *)
Definition steep_projectile : Projectile.t :=
  {| Projectile.__speed := PyFloat 0x1p+600;
     Projectile.__height := PyInt 0;
     Projectile.__angle := right_angle |}.

(** [Projectile(10 ** 400, 5, 0)] and [Projectile(10 ** 400, -5, 0)]: a
    speed that is an [int] beyond the binary64 numbers. *)
Definition huge_projectile : Projectile.t :=
  {| Projectile.__speed := PyInt (10 ^ 400);
     Projectile.__height := PyInt 5;
     Projectile.__angle := 0 |}.

Definition huge_sunk_projectile : Projectile.t :=
  {| Projectile.__speed := PyInt (10 ^ 400);
     Projectile.__height := PyInt (-5);
     Projectile.__angle := 0 |}.

(** [Projectile(float('nan'), 5, 0)] *)
Definition nan_projectile : Projectile.t :=
  {| Projectile.__speed := PyFloat nan;
     Projectile.__height := PyInt 5;
     Projectile.__angle := 0 |}.

(** * Properties *)

(** ** The result monad *)

Lemma bind_Ok {A B} (m : result A) (f : A → result B) b :
  m ≫= f = Ok b ↔ ∃ a, m = Ok a ∧ f a = Ok b.
Proof.
  destruct m as [a|e]; simpl; split.
  - intros H. by exists a.
  - by intros (a' & [= ->] & H).
  - done.
  - by intros (a' & [=] & _).
Qed.

Lemma bind_Raise {A B} (m : result A) (f : A → result B) e :
  m ≫= f = Raise e ↔ m = Raise e ∨ ∃ a, m = Ok a ∧ f a = Raise e.
Proof.
  destruct m as [a|e']; simpl; split.
  - intros H. right. by exists a.
  - by intros [[=]|(a' & [= ->] & H)].
  - intros [= ->]. by left.
  - by intros [[= ->]|(a' & [=] & _)].
Qed.

Lemma returns_or_raises {A} (m : result A) : returns m ∨ raises m.
Proof. destruct m as [a|e]; [left; by exists a|right; by exists e]. Qed.

Lemma mapM_Ok {A B} (f : A → result B) (l : list A) :
  Forall (λ x, returns (f x)) l →
  ∃ k, mapM f l = Ok k ∧ Forall2 (λ x y, f x = Ok y) l k.
Proof.
  induction 1 as [|x l [y Hy] _ (k & Hk & IH)].
  - by exists [].
  - exists (y :: k). simpl. rewrite Hy. simpl. rewrite Hk. by repeat constructor.
Qed.

Lemma mapM_Ok_inv {A B} (f : A → result B) (l : list A) k :
  mapM f l = Ok k → Forall2 (λ x y, f x = Ok y) l k.
Proof.
  revert k. induction l as [|x l IH]; intros k; simpl.
  - intros [= <-]. constructor.
  - intros (y & Hy & (k' & Hk' & [= <-])%bind_Ok)%bind_Ok. constructor; auto.
Qed.

Lemma mapM_Raise {A B} (f : A → result B) (l : list A) e :
  mapM f l = Raise e → ∃ x, x ∈ l ∧ f x = Raise e.
Proof.
  induction l as [|x l IH]; simpl; [done|].
  intros [Hx|(y & Hy & [Hl|(k & _ & [=])]%bind_Raise)]%bind_Raise.
  - exists x. split; [left|done].
  - destruct (IH Hl) as (x' & Hin & Hx'). exists x'. split; [by right|done].
Qed.

(** ** Binary64 facts *)

Lemma Prim2SF_0 : Prim2SF 0 = S754_zero false.
Proof. reflexivity. Qed.

Lemma is_nan_Prim2SF f :
  is_nan f = match Prim2SF f with S754_nan => true | _ => false end.
Proof.
  unfold is_nan. rewrite FloatAxioms.eqb_spec. unfold SFeqb.
  destruct (Prim2SF f) as [s|s| |s m e]; try done.
  - by destruct s.
  - simpl. rewrite Z.compare_refl, Pos.compare_cont_refl. by destruct s.
Qed.

Lemma is_infinity_Prim2SF f :
  is_infinity f = match Prim2SF f with S754_infinity _ => true | _ => false end.
Proof.
  unfold is_infinity. rewrite FloatAxioms.eqb_spec, abs_spec.
  change (Prim2SF infinity) with (S754_infinity false).
  by destruct (Prim2SF f) as [s|s| |s m e].
Qed.

Lemma is_finite_Prim2SF f : is_finite f = SF_is_finite (Prim2SF f).
Proof.
  unfold is_finite. rewrite is_nan_Prim2SF, is_infinity_Prim2SF.
  by destruct (Prim2SF f).
Qed.

Lemma eqb_0_Prim2SF f :
  (f =? 0)%float = match Prim2SF f with S754_zero _ => true | _ => false end.
Proof.
  rewrite FloatAxioms.eqb_spec, Prim2SF_0.
  destruct (Prim2SF f) as [s|s| |s m e]; try done; by destruct s.
Qed.

Lemma leb_0_Prim2SF f :
  (0 <=? f)%float =
  match Prim2SF f with
  | S754_zero _ | S754_infinity false | S754_finite false _ _ => true
  | _ => false
  end.
Proof.
  rewrite FloatAxioms.leb_spec, Prim2SF_0.
  destruct (Prim2SF f) as [s|s| |s m e]; try done; by destruct s.
Qed.

Lemma ltb_Prim2SF_0 f :
  (f <? 0)%float =
  match Prim2SF f with
  | S754_infinity true | S754_finite true _ _ => true
  | _ => false
  end.
Proof.
  rewrite FloatAxioms.ltb_spec, Prim2SF_0.
  destruct (Prim2SF f) as [s|s| |s m e]; try done; by destruct s.
Qed.

Lemma leb_Prim2SF_0 f :
  (f <=? 0)%float =
  match Prim2SF f with
  | S754_zero _ | S754_infinity true | S754_finite true _ _ => true
  | _ => false
  end.
Proof.
  rewrite FloatAxioms.leb_spec, Prim2SF_0.
  destruct (Prim2SF f) as [s|s| |s m e]; try done; by destruct s.
Qed.

(** Multiplication is commutative: the product does not depend on the order
    in which a formula names its factors. *)
Lemma float_mul_comm (x y : float) : (x * y)%float = (y * x)%float.
Proof.
  apply Prim2SF_inj. rewrite !mul_spec. unfold SF64mul, SFmul.
  destruct (Prim2SF x) as [sx|sx| |sx mx ex], (Prim2SF y) as [sy|sy| |sy my ey];
    try done; try by rewrite xorb_comm.
  by rewrite xorb_comm, Pos.mul_comm, Z.add_comm.
Qed.

(** A zero times a finite number is a zero. *)
Lemma float_mul_0_l (x y : float) :
  (x =? 0)%float = true → is_finite y = true → (x * y =? 0)%float = true.
Proof.
  rewrite !eqb_0_Prim2SF, is_finite_Prim2SF, mul_spec. unfold SF64mul, SFmul.
  by destruct (Prim2SF x) as [sx|sx| |sx mx ex], (Prim2SF y) as [sy|sy| |sy my ey].
Qed.

(** *** The square root of a finite non-negative number is finite *)

Lemma digits2_pos_bounds p :
  2 ^ (Zpos (digits2_pos p) - 1) ≤ Zpos p < 2 ^ Zpos (digits2_pos p).
Proof.
  induction p as [p IH|p IH|]; simpl digits2_pos.
  - rewrite Pos2Z.inj_succ, Z.pow_succ_r by lia.
    replace (Z.succ (Zpos (digits2_pos p)) - 1)
      with (Z.succ (Zpos (digits2_pos p) - 1)) by lia.
    rewrite Z.pow_succ_r by lia. lia.
  - rewrite Pos2Z.inj_succ, Z.pow_succ_r by lia.
    replace (Z.succ (Zpos (digits2_pos p)) - 1)
      with (Z.succ (Zpos (digits2_pos p) - 1)) by lia.
    rewrite Z.pow_succ_r by lia. lia.
  - simpl. lia.
Qed.

Lemma Zdigits2_le a k : 0 ≤ a < 2 ^ k → 0 ≤ k → Zdigits2 a ≤ k.
Proof.
  intros [Ha Hk] Hk0. destruct a as [|p|p]; simpl; [lia| |lia].
  pose proof (digits2_pos_bounds p) as [Hl _].
  destruct (Z_lt_le_dec k (Zpos (digits2_pos p))) as [Hlt|]; [|done].
  exfalso. assert (2 ^ k ≤ 2 ^ (Zpos (digits2_pos p) - 1)); [|lia].
  apply Z.pow_le_mono_r; lia.
Qed.

Lemma shr_1_bounds mrs : 0 ≤ shr_m mrs → 0 ≤ shr_m (shr_1 mrs) ≤ shr_m mrs.
Proof.
  destruct mrs as [m r s]; simpl. destruct m as [|[p|p|]|p]; simpl; lia.
Qed.

Lemma iter_pos_shr_1_bounds n mrs :
  0 ≤ shr_m mrs → 0 ≤ shr_m (SpecFloat.iter_pos shr_1 n mrs) ≤ shr_m mrs.
Proof.
  revert mrs. induction n as [n IH|n IH|]; intros mrs Hm; simpl.
  - pose proof (shr_1_bounds mrs Hm).
    pose proof (IH (shr_1 mrs) ltac:(lia)).
    pose proof (IH (SpecFloat.iter_pos shr_1 n (shr_1 mrs)) ltac:(lia)). lia.
  - pose proof (IH mrs Hm).
    pose proof (IH (SpecFloat.iter_pos shr_1 n mrs) ltac:(lia)). lia.
  - by apply shr_1_bounds.
Qed.

Lemma shr_m_shr_record_of_loc m l : shr_m (shr_record_of_loc m l) = m.
Proof. by destruct l as [|[]]. Qed.

Lemma shr_fexp_bounds m e l :
  0 ≤ m →
  0 ≤ shr_m (shr_fexp prec emax m e l).1 ≤ m ∧
  (shr_fexp prec emax m e l).2 = Z.max e (fexp prec emax (Zdigits2 m + e)).
Proof.
  intros Hm. unfold shr_fexp, shr.
  destruct (fexp prec emax (Zdigits2 m + e) - e) as [|p|p] eqn:E; simpl.
  - rewrite shr_m_shr_record_of_loc. lia.
  - pose proof (iter_pos_shr_1_bounds p (shr_record_of_loc m l)) as H.
    rewrite shr_m_shr_record_of_loc in H. lia.
  - rewrite shr_m_shr_record_of_loc. lia.
Qed.

Lemma round_nearest_even_bounds m l :
  0 ≤ m → m ≤ round_nearest_even m l ≤ m + 1.
Proof.
  intros Hm. destruct l as [|[]]; simpl; try lia. destruct (Z.even m); lia.
Qed.

(** Rounding a mantissa below 2^54 at an exponent of at most 485 cannot
    overflow. *)
Lemma binary_round_aux_finite s mx ex lx :
  0 ≤ mx < 2 ^ 54 → ex ≤ 485 →
  SF_is_finite (binary_round_aux prec emax s mx ex lx) = true.
Proof.
  intros Hmx Hex. unfold binary_round_aux.
  pose proof (shr_fexp_bounds mx ex lx ltac:(lia)) as [Hm1 He1].
  destruct (shr_fexp prec emax mx ex lx) as [mrs1 e1]; simpl in Hm1, He1.
  set (m1 := round_nearest_even (shr_m mrs1) (loc_of_shr_record mrs1)).
  pose proof (round_nearest_even_bounds (shr_m mrs1) (loc_of_shr_record mrs1)
                ltac:(lia)) as Hr.
  fold m1 in Hr.
  pose proof (shr_fexp_bounds m1 e1 loc_Exact ltac:(lia)) as [Hm2 He2].
  destruct (shr_fexp prec emax m1 e1 loc_Exact) as [mrs2 e2]; simpl in Hm2, He2.
  assert (Zdigits2 mx ≤ 54) as Hd by (apply Zdigits2_le; lia).
  assert (Zdigits2 m1 ≤ 55) as Hd1.
  { apply Zdigits2_le; [|lia]. change (2 ^ 55) with (2 * 2 ^ 54). lia. }
  assert (0 ≤ Zdigits2 mx) by (destruct mx; simpl; lia).
  assert (0 ≤ Zdigits2 m1) by (destruct m1; simpl; lia).
  unfold fexp, SpecFloat.emin, prec, emax in *.
  destruct (shr_m mrs2) as [|p|p]; [done| |lia].
  destruct (Z.leb_spec e2 (1024 - 53)); [done|lia].
Qed.

Lemma sqrt_core_bounds m e :
  bounded prec emax m e = true →
  0 ≤ (SFsqrt_core_binary prec emax (Zpos m) e).1.1 < 2 ^ 54 ∧
  (SFsqrt_core_binary prec emax (Zpos m) e).1.2 ≤ 485.
Proof.
  unfold bounded, canonical_mantissa. rewrite andb_true_iff, Z.eqb_eq, Z.leb_le.
  intros [Hc He]. unfold SFsqrt_core_binary. simpl Zdigits2.
  pose proof (digits2_pos_bounds m) as [_ Hm].
  pose proof (Pos2Z.is_pos (digits2_pos m)) as Hd.
  set (d := Zpos (digits2_pos m)) in *. clearbody d.
  rewrite !Z.div2_div.
  set (ez := Z.min _ _).
  assert (ez ≤ 485 ∧ 0 ≤ e - 2 * ez ∧ d + (e - 2 * ez) ≤ 106) as (Hez & Hs0 & Hs).
  { clear Hm. unfold ez, fexp, SpecFloat.emin, prec, emax in *.
    Z.div_mod_to_equations. lia. }
  set (m' := match e - 2 * ez with Z0 => _ | Zpos _ => _ | Zneg _ => _ end).
  assert (0 ≤ m' < 2 ^ 106) as Hm'.
  { assert (m' = Zpos m * 2 ^ (e - 2 * ez)) as ->.
    { unfold m'. destruct (e - 2 * ez) as [|p|p] eqn:E; [lia| |lia].
      by rewrite Z.shiftl_mul_pow2. }
    split; [apply Z.mul_nonneg_nonneg; lia|].
    apply Z.lt_le_trans with (2 ^ d * 2 ^ (e - 2 * ez)).
    - apply Z.mul_lt_mono_pos_r; [apply Z.pow_pos_nonneg|]; lia.
    - rewrite <- Z.pow_add_r by lia. apply Z.pow_le_mono_r; lia. }
  pose proof (Z.sqrtrem_spec m' ltac:(lia)) as Hq.
  destruct (Z.sqrtrem m') as [q r]. simpl. split; [|done].
  destruct Hq as [Hq Hr]. split; [lia|].
  destruct (Z_lt_le_dec q (2 ^ 54)) as [|Hge]; [done|exfalso].
  assert (2 ^ 54 * 2 ^ 54 ≤ q * q) by (apply Z.mul_le_mono_nonneg; lia).
  change (2 ^ 54 * 2 ^ 54) with (2 ^ 108) in *.
  assert (2 ^ 106 < 2 ^ 108) by done. lia.
Qed.

Lemma SF64sqrt_finite m e :
  bounded prec emax m e = true →
  SF_is_finite (SF64sqrt (S754_finite false m e)) = true.
Proof.
  intros Hv. unfold SF64sqrt, SFsqrt.
  pose proof (sqrt_core_bounds m e Hv) as [Hq He].
  destruct (SFsqrt_core_binary prec emax (Zpos m) e) as [[q ez] l].
  by apply binary_round_aux_finite.
Qed.

(** [math.sqrt] returns on every non-negative argument, zero and [inf]
    included, and raises on every negative one. *)
Lemma math_sqrt_nonneg (d : float) :
  (0 <=? d)%float = true → math_sqrt d = Ok (PrimFloat.sqrt d).
Proof.
  rewrite leb_0_Prim2SF. intros Hd. unfold math_sqrt, math_1.
  rewrite !is_nan_Prim2SF, is_infinity_Prim2SF, is_finite_Prim2SF, sqrt_spec.
  pose proof (Prim2SF_valid d) as Hv.
  destruct (Prim2SF d) as [s|s| |s m e]; try done.
  - by destruct s.
  - destruct s; [done|]. simpl in Hv.
    pose proof (SF64sqrt_finite m e Hv) as Hf.
    by destruct (SF64sqrt (S754_finite false m e)).
Qed.

Lemma math_sqrt_negative (d : float) :
  (d <? 0)%float = true → math_sqrt d = Raise ValueError_math_domain.
Proof.
  rewrite ltb_Prim2SF_0. intros Hd. unfold math_sqrt, math_1.
  rewrite !is_nan_Prim2SF, sqrt_spec.
  destruct (Prim2SF d) as [s|s| |s m e]; try done; by destruct s.
Qed.

(** ** Stepping through a computation *)

Lemma Ok_bind {A B} (a : A) (f : A → result B) : Ok a ≫= f = f a.
Proof. reflexivity. Qed.

Lemma Raise_bind {A B} e (f : A → result B) : Raise e ≫= f = Raise e.
Proof. reflexivity. Qed.

Lemma fmap_Ok {A B} (f : A → B) (a : A) : f <$> Ok a = Ok (f a).
Proof. reflexivity. Qed.

Ltac run := rewrite ?fmap_Ok, ?Ok_bind, ?Raise_bind.
Ltac run_in H := rewrite ?fmap_Ok, ?Ok_bind, ?Raise_bind in H.

(** ** What each operation can raise *)

Lemma math_1_raises f x e : math_1 f x = Raise e → e = ValueError_math_domain.
Proof. unfold math_1. repeat case_match; congruence. Qed.

Lemma math_1_finite f x r :
  math_1 f x = Ok r → is_finite x = true → is_finite r = true.
Proof.
  unfold math_1, is_finite. intros H Hx.
  apply negb_true_iff, orb_false_iff in Hx as [Hn Hi].
  rewrite Hn, Hi in H. simpl in H. rewrite !andb_true_r in H.
  destruct (is_nan (f x)) eqn:E1; [done|].
  destruct (is_infinity (f x)) eqn:E2; [done|].
  injection H as <-. by rewrite E1, E2.
Qed.

Lemma PyLong_AsDouble_raises z e :
  PyLong_AsDouble z = Raise e → e = OverflowError_int_too_large.
Proof. unfold PyLong_AsDouble. case_match; congruence. Qed.

Lemma PyFloat_AsDouble_raises x e :
  PyFloat_AsDouble x = Raise e → e = OverflowError_int_too_large.
Proof. destruct x; simpl; [apply PyLong_AsDouble_raises|done]. Qed.

Lemma float_mul_py_raises a b e :
  float_mul_py a b = Raise e → e = OverflowError_int_too_large.
Proof.
  unfold float_mul_py. intros [H|(y & _ & [=])]%bind_Raise.
  by apply PyFloat_AsDouble_raises in H.
Qed.

Lemma py_mul_float_raises a b e :
  py_mul_float a b = Raise e → e = OverflowError_int_too_large.
Proof.
  unfold py_mul_float. intros [H|(y & _ & [=])]%bind_Raise.
  by apply PyFloat_AsDouble_raises in H.
Qed.

Lemma py_add_float_raises a b e :
  py_add_float a b = Raise e → e = OverflowError_int_too_large.
Proof.
  unfold py_add_float. intros [H|(y & _ & [=])]%bind_Raise.
  by apply PyFloat_AsDouble_raises in H.
Qed.

Lemma py_mul_raises a b e :
  py_mul a b = Raise e → e = OverflowError_int_too_large.
Proof.
  destruct a as [x|x], b as [y|y]; simpl; try done.
  - destruct (PyLong_AsDouble x) eqn:E; [done|].
    intros [= <-]. by apply PyLong_AsDouble_raises in E.
  - destruct (PyLong_AsDouble y) eqn:E; [done|].
    intros [= <-]. by apply PyLong_AsDouble_raises in E.
Qed.

Lemma float_mul_py_int a z r :
  float_mul_py a (PyInt z) = Ok r ↔
  ∃ zf, PyLong_AsDouble z = Ok zf ∧ r = (a * zf)%float.
Proof.
  unfold float_mul_py. simpl. destruct (PyLong_AsDouble z) as [zf|]; simpl.
  - split; [intros [= <-]; by exists zf|by intros (? & [= <-] & ->)].
  - split; [done|by intros (? & [=] & _)].
Qed.

Lemma py_round_raises y e :
  py_round y = Raise e →
  e = ValueError_nan_to_int ∨ e = OverflowError_inf_to_int.
Proof. unfold py_round. destruct (Prim2SF y); intros [=]; auto. Qed.

Lemma list_index_raises len i e :
  list_index len i = Raise e → e = IndexError_list.
Proof. unfold list_index. case_match; congruence. Qed.

Lemma getitem_raises {A} (l : list A) i e :
  getitem l i = Raise e → e = IndexError_list.
Proof.
  unfold getitem. intros [H|(j & _ & H)]%bind_Raise.
  - by apply list_index_raises in H.
  - destruct (l !! j); congruence.
Qed.

Lemma setitem_raises {A} (l : list A) i a e :
  setitem l i a = Raise e → e = IndexError_list.
Proof.
  unfold setitem. intros [H|(j & _ & [=])]%bind_Raise.
  by apply list_index_raises in H.
Qed.

Lemma G_nonzero : (GRAVITATIONAL_ACCELERATION =? 0)%float = false.
Proof. reflexivity. Qed.

Lemma eqb_0_not_nan_inf f :
  (f =? 0)%float = true → is_nan f = false ∧ is_infinity f = false.
Proof.
  rewrite eqb_0_Prim2SF, is_nan_Prim2SF, is_infinity_Prim2SF.
  by destruct (Prim2SF f).
Qed.

(** [math.ceil] of a number that is at most zero is at most zero. *)
Lemma math_ceil_nonpos d n :
  math_ceil d = Ok n → (d <=? 0)%float = true → n ≤ 0.
Proof.
  unfold math_ceil. rewrite leb_Prim2SF_0.
  destruct (Prim2SF d) as [s|s| |s m e]; try done.
  - by intros [= <-].
  - destruct s; [|done]. intros [= <-] _. simpl.
    destruct e as [|p|p]; try lia.
    unfold div_ceil. rewrite Z.opp_involutive.
    assert (0 ≤ Zpos m / 2 ^ Zpos p); [|lia].
    apply Z.div_pos; lia.
Qed.

Lemma range_lookup n i :
  (i < Z.to_nat n)%nat → range n !! i = Some (Z.of_nat i).
Proof.
  intros Hi. unfold range. rewrite list_lookup_fmap, lookup_seq_lt; done.
Qed.

Lemma range_elem n x : x ∈ range n → 0 ≤ x < n.
Proof.
  unfold range. intros (i & -> & Hi)%list_elem_of_fmap.
  apply elem_of_seq in Hi. lia.
Qed.


(** ** Projectile: the angle accessors *)

Section AngleProperties.
Import Projectile.

(** Every set/get cycle reads the same value: the stored radians depend on
    the argument of the setter alone. *)
Lemma set_get_angle_reading self d n :
  set_get_angle n self d = (a ← math_radians d; py_round (math_degrees a)).
Proof.
  revert self. induction n as [|n IH]; intros self; simpl; unfold set_angle.
  - destruct (math_radians d) as [a|e]; run; [|done].
    unfold angle. simpl. by destruct (py_round _).
  - destruct (math_radians d) as [a|e] eqn:Ha; run; [|done].
    unfold angle at 1. simpl.
    destruct (py_round (math_degrees a)) as [r|e] eqn:Hr; run; [|done].
    rewrite IH. by run.
Qed.



End AngleProperties.



(** ** Projectile: displacement and height *)

Section KinematicsProperties.
Import Projectile.
Context (libm : Libm).

(** The value of [x ** 2] for a finite [x], when it has one. *)
Lemma float_pow_2_value x sq :
  float_pow_2 libm x = Ok sq → is_finite x = true → sq = square_value libm x.
Proof.
  unfold float_pow_2, square_value, is_finite. intros H Hx.
  apply negb_true_iff, orb_false_iff in Hx as [Hn Hi]. rewrite Hn, Hi in H.
  destruct (x =? 0)%float; [by injection H as <-|].
  cbv zeta in *.
  destruct (_ =? 1)%float; [by injection H as <-|].
  destruct (is_nan _); [done|]. destruct (is_infinity _); [done|].
  by injection H as <-.
Qed.

(** C1, as amended. Let the speed and the height have the float values
    [v] and [h] (neither is an [int] too large for a [float]), let cos θ and
    sin θ have the values [c] and [s] at the stored angle, and let the square
    (v·sinθ)² have a value [sq] (it does not overflow). Whenever the
    discriminant sq + 2·g·h is at least zero, [__calculate_displacement]
    returns the range formula
    (v·cosθ) · (v·sinθ + sqrt((v·sinθ)² + 2·g·h)) / g with g = 9.81. For a
    finite v·sinθ the square [sq] is what the C library's [pow] answers for
    |v·sinθ| and 2 (0 for a zero, 1 for ±1). *)
Theorem displacement_is_range_formula self v h c s sq :
  PyFloat_AsDouble (__speed self) = Ok v →
  PyFloat_AsDouble (__height self) = Ok h →
  math_cos libm (__angle self) = Ok c →
  math_sin libm (__angle self) = Ok s →
  float_pow_2 libm (v * s) = Ok sq →
  (0 <=? sq + 2 * GRAVITATIONAL_ACCELERATION * h)%float = true →
  __calculate_displacement libm self = Ok (range_formula v h c s sq)
  ∧ (is_finite (v * s) = true → sq = square_value libm (v * s)).
Proof.
  intros Hv Hh Hc Hs Hq Hd. split; [|by apply float_pow_2_value].
  unfold __calculate_displacement.
  unfold py_mul_float, float_mul_py.
  rewrite Hc; run. rewrite Hv; run. rewrite Hs; run. rewrite Hq; run.
  rewrite Hh; run. rewrite (math_sqrt_nonneg _ Hd); run.
  unfold float_truediv. by rewrite G_nonzero.
Qed.

(** C6, as amended. Let the speed and the height have the float values
    [v] and [h], let sin θ have the value [s] and the square (v·sinθ)² the
    value [sq] (no overflow). When the discriminant sq + 2·g·h is negative,
    [__calculate_displacement] raises the domain error of [math.sqrt] and
    returns no value; when it is not negative and cos θ has a value, it
    returns. For a finite v·sinθ the square [sq] is what the C library's
    [pow] answers for |v·sinθ| and 2 (0 for a zero, 1 for ±1). *)
Theorem displacement_domain_error self v h s sq :
  PyFloat_AsDouble (__speed self) = Ok v →
  PyFloat_AsDouble (__height self) = Ok h →
  math_sin libm (__angle self) = Ok s →
  float_pow_2 libm (v * s) = Ok sq →
  ((sq + 2 * GRAVITATIONAL_ACCELERATION * h <? 0)%float = true →
   __calculate_displacement libm self = Raise ValueError_math_domain)
  ∧ ((0 <=? sq + 2 * GRAVITATIONAL_ACCELERATION * h)%float = true →
     returns (math_cos libm (__angle self)) →
     returns (__calculate_displacement libm self))
  ∧ (is_finite (v * s) = true → sq = square_value libm (v * s)).
Proof.
  intros Hv Hh Hs Hq. split; [|split; [|by apply float_pow_2_value]].
  - intros Hd. unfold __calculate_displacement.
    destruct (math_cos libm (__angle self)) as [c|e] eqn:Hc.
    + unfold py_mul_float, float_mul_py.
      run. rewrite Hv; run. rewrite Hs; run. rewrite Hq; run. rewrite Hh; run.
      by rewrite (math_sqrt_negative _ Hd).
    + by rewrite (math_1_raises _ _ _ Hc).
  - intros Hd [c Hc]. exists (range_formula v h c s sq).
    unfold __calculate_displacement, py_mul_float, float_mul_py.
    rewrite Hc; run. rewrite Hv; run. rewrite Hs; run. rewrite Hq; run.
    rewrite Hh; run. rewrite (math_sqrt_nonneg _ Hd); run.
    unfold float_truediv. by rewrite G_nonzero.
Qed.

Lemma float_pow_2_raises iv e :
  float_pow_2 libm iv = Raise e →
  e = ValueError_math_domain ∨ e = OverflowError_result_range.
Proof. unfold float_pow_2. repeat case_match; intros [=]; auto. Qed.

Lemma float_pow_2_finite c c2 :
  float_pow_2 libm c = Ok c2 → is_finite c = true → is_finite c2 = true.
Proof.
  unfold float_pow_2, is_finite. intros H Hc.
  apply negb_true_iff, orb_false_iff in Hc as [Hn Hi]. rewrite Hn, Hi in H.
  destruct (c =? 0)%float; [by injection H as <-|].
  destruct (_ =? 1)%float; [by injection H as <-|].
  destruct (is_nan _) eqn:E1; [done|]. destruct (is_infinity _) eqn:E2; [done|].
  injection H as <-. by rewrite E1, E2.
Qed.

Lemma py_pow_2_raises x e :
  py_pow_2 libm x = Raise e →
  e = ValueError_math_domain ∨ e = OverflowError_result_range.
Proof.
  destruct x as [z|f]; simpl; [done|].
  destruct (float_pow_2 libm f) eqn:E; [done|].
  intros [= <-]. by apply float_pow_2_raises in E.
Qed.

Lemma denominator_no_zero_division self :
  denominator libm self ≠ Raise ZeroDivisionError_float.
Proof.
  unfold denominator.
  intros [H|(s2 & _ & [H|(tw & _ & [H|(c & _ & [H|(c2 & _ & H)]%bind_Raise)
    ]%bind_Raise)]%bind_Raise)]%bind_Raise.
  - by apply py_pow_2_raises in H as [|].
  - by apply py_mul_raises in H.
  - by apply math_1_raises in H.
  - by apply float_pow_2_raises in H as [|].
  - by apply py_mul_float_raises in H.
Qed.

(** The method, with its denominator named. *)
Lemma y_coordinate_steps self x :
  __calculate_y_coordinate libm self x =
  (t ← math_tan libm (__angle self);
   angle_component ← float_mul_py t (PyInt x);
   numerator ← float_mul_py GRAVITATIONAL_ACCELERATION (PyInt (x ^ 2));
   den ← denominator libm self;
   acceleration_component ← float_truediv numerator den;
   y_coordinate ← py_add_float (__height self) angle_component;
   Ok (y_coordinate - acceleration_component)%float).
Proof.
  unfold __calculate_y_coordinate, denominator.
  destruct (math_tan libm (__angle self)) as [t|]; [run|done].
  destruct (float_mul_py t (PyInt x)) as [a|]; [run|done].
  destruct (float_mul_py GRAVITATIONAL_ACCELERATION (PyInt (x ^ 2))) as [n|];
    [run|done].
  destruct (py_pow_2 libm (__speed self)) as [s2|]; [run|done].
  destruct (py_mul (PyInt 2) s2) as [tw|]; [run|done].
  destruct (math_cos libm (__angle self)) as [c|]; [run|done].
  destruct (float_pow_2 libm c) as [c2|]; [run|done].
  by destruct (py_mul_float tw c2).
Qed.

(** C2, as amended. Let [h] be the float value of the height, [t] the
    value of tan θ, [xf] and [x2f] the float values of x and x², and [den]
    the value of the denominator 2·v²·cos²θ. Whenever [den] is not zero,
    [__calculate_y_coordinate] returns h + x·tanθ − g·x²/(2·v²·cos²θ). *)
Theorem y_coordinate_is_height_formula self x h t xf x2f den :
  PyFloat_AsDouble (__height self) = Ok h →
  math_tan libm (__angle self) = Ok t →
  PyLong_AsDouble x = Ok xf →
  PyLong_AsDouble (x ^ 2) = Ok x2f →
  denominator libm self = Ok den →
  (den =? 0)%float = false →
  __calculate_y_coordinate libm self x = Ok (height_formula h xf x2f t den).
Proof.
  intros Hh Ht Hx Hx2 Hden Hnz. rewrite y_coordinate_steps.
  assert (float_mul_py t (PyInt x) = Ok (t * xf)%float) as Ha
    by (apply float_mul_py_int; eauto).
  assert (float_mul_py GRAVITATIONAL_ACCELERATION (PyInt (x ^ 2))
          = Ok (GRAVITATIONAL_ACCELERATION * x2f)%float) as Hn
    by (apply float_mul_py_int; eauto).
  rewrite Ht; run. rewrite Ha; run. rewrite Hn; run. rewrite Hden; run.
  unfold float_truediv. rewrite Hnz; run.
  unfold py_add_float. rewrite Hh; run.
  unfold height_formula. by rewrite (float_mul_comm xf t).
Qed.

Lemma zero_division_characterised self x :
  __calculate_y_coordinate libm self x = Raise ZeroDivisionError_float ↔
  ∃ t xf x2f den,
    math_tan libm (__angle self) = Ok t ∧
    PyLong_AsDouble x = Ok xf ∧
    PyLong_AsDouble (x ^ 2) = Ok x2f ∧
    denominator libm self = Ok den ∧
    (den =? 0)%float = true.
Proof.
  rewrite y_coordinate_steps. split.
  - destruct (math_tan libm (__angle self)) as [t|e] eqn:Ht; run;
      [|intros [= ->]; by apply math_1_raises in Ht].
    destruct (float_mul_py t (PyInt x)) as [a|e] eqn:Ha; run;
      [|intros [= ->]; by apply float_mul_py_raises in Ha].
    destruct (float_mul_py GRAVITATIONAL_ACCELERATION (PyInt (x ^ 2)))
      as [n|e] eqn:Hn; run;
      [|intros [= ->]; by apply float_mul_py_raises in Hn].
    destruct (denominator libm self) as [den|e] eqn:Hden; run;
      [|intros [= ->]; by apply denominator_no_zero_division in Hden].
    apply float_mul_py_int in Ha as (xf & Hx & _).
    apply float_mul_py_int in Hn as (x2f & Hx2 & _).
    unfold float_truediv. destruct (den =? 0)%float eqn:Hz; run.
    + intros _. by exists t, xf, x2f, den.
    + destruct (py_add_float (__height self) a) as [y|e] eqn:Hy; run; [done|].
      intros [= ->]. by apply py_add_float_raises in Hy.
  - intros (t & xf & x2f & den & Ht & Hx & Hx2 & Hden & Hz).
    assert (float_mul_py t (PyInt x) = Ok (t * xf)%float) as Ha
      by (apply float_mul_py_int; eauto).
    assert (float_mul_py GRAVITATIONAL_ACCELERATION (PyInt (x ^ 2))
            = Ok (GRAVITATIONAL_ACCELERATION * x2f)%float) as Hn
      by (apply float_mul_py_int; eauto).
    rewrite Ht; run. rewrite Ha; run. rewrite Hn; run. rewrite Hden; run.
    unfold float_truediv. by rewrite Hz.
Qed.

(** With a speed of zero and a finite angle the denominator is zero. *)
Lemma denominator_zero_speed self den :
  py_is_zero (__speed self) = true → is_finite (__angle self) = true →
  denominator libm self = Ok den → (den =? 0)%float = true.
Proof.
  intros Hz Hfin. unfold denominator.
  intros (s2 & Hs2 & (tw & Htw & (c & Hc & (c2 & Hc2 & Hden)%bind_Ok)%bind_Ok
    )%bind_Ok)%bind_Ok.
  apply math_1_finite in Hc; [|done].
  apply float_pow_2_finite in Hc2; [|done].
  assert (∃ z, PyFloat_AsDouble tw = Ok z ∧ (z =? 0)%float = true)
    as (z & Hz' & Hz0).
  { destruct (__speed self) as [n|f]; simpl in Hz, Hs2.
    - apply Z.eqb_eq in Hz as ->. injection Hs2 as <-. injection Htw as <-.
      by exists 0%float.
    - destruct (eqb_0_not_nan_inf f Hz) as [Hn Hi].
      unfold float_pow_2 in Hs2. rewrite Hn, Hi, Hz in Hs2.
      injection Hs2 as <-. injection Htw as <-. by exists 0%float. }
  unfold py_mul_float in Hden. rewrite Hz' in Hden. injection Hden as <-.
  by apply float_mul_0_l.
Qed.

Lemma y_coordinate_zero_speed_raises self x :
  py_is_zero (__speed self) = true → is_finite (__angle self) = true →
  raises (__calculate_y_coordinate libm self x).
Proof.
  intros Hz Hfin. rewrite y_coordinate_steps.
  destruct (math_tan libm (__angle self)) as [t|e]; run; [|by exists e].
  destruct (float_mul_py t (PyInt x)) as [a|e]; run; [|by exists e].
  destruct (float_mul_py GRAVITATIONAL_ACCELERATION (PyInt (x ^ 2))) as [n|e];
    run; [|by exists e].
  destruct (denominator libm self) as [den|e] eqn:Hden; run; [|by exists e].
  unfold float_truediv.
  rewrite (denominator_zero_speed self den Hz Hfin Hden).
  by eexists.
Qed.


(** C3, as amended. Let the displacement be [d] and its ceiling [n]. If
    [__calculate_y_coordinate] returns at every integer x from 0 to n − 1,
    [calculate_all_coordinates] returns exactly n points, the one at
    position i being (i, heightAt(i)): x runs from 0 in steps of 1. If
    d ≤ 0 it returns the empty list. *)
Theorem all_coordinates_sampled self d n :
  __calculate_displacement libm self = Ok d →
  math_ceil d = Ok n →
  ((∀ x, 0 ≤ x < n → returns (__calculate_y_coordinate libm self x)) →
   ∃ pts,
     calculate_all_coordinates libm self = Ok pts ∧
     length pts = Z.to_nat n ∧
     ∀ i, (i < Z.to_nat n)%nat →
       ∃ y, pts !! i = Some (Z.of_nat i, y) ∧
            __calculate_y_coordinate libm self (Z.of_nat i) = Ok y)
  ∧ ((d <=? 0)%float = true → calculate_all_coordinates libm self = Ok []).
Proof.
  intros Hd Hn. unfold calculate_all_coordinates.
  rewrite Hd; run. rewrite Hn; run. split.
  - intros Hy.
    destruct (mapM_Ok
      (λ x, y ← __calculate_y_coordinate libm self x; Ok (x, y)) (range n))
      as (pts & Hpts & Hall).
    { apply Forall_forall. intros x Hx%range_elem.
      destruct (Hy x Hx) as [y ->]. by exists (x, y). }
    exists pts. split; [done|]. split.
    { rewrite <- (Forall2_length _ _ _ Hall). unfold range.
      by rewrite length_fmap, length_seq. }
    intros i Hi.
    destruct (Forall2_lookup_l _ _ _ i _ Hall (range_lookup n i Hi))
      as (p & Hp & Hf).
    apply bind_Ok in Hf as (y & Hy' & [= <-]). by exists y.
  - intros Hle. pose proof (math_ceil_nonpos d n Hn Hle).
    unfold range. by replace (Z.to_nat n) with 0%nat by lia.
Qed.

End KinematicsProperties.

(** *** At the sample trajectories *)

(** [Projectile(1, 5, 0)]: a range of 1.0096 m. [Projectile(3, 5, 90)]:
    the vertical speed is 3, its square 9, and the range 2.5e-16 m. *)
Lemma displacement_is_range_formula_witness :
  (Projectile.__calculate_displacement libm_at_zero unit_projectile
   = Ok (range_formula 1 5 1 0 0)
   ∧ range_formula 1 5 1 0 0 = 0x1.02779b5637841p+0%float)
  ∧ (Projectile.__init__ (PyInt 3) (PyInt 5) (PyInt 90) = Ok upright_projectile
     ∧ Projectile.__calculate_displacement libm_at_right_angle upright_projectile
       = Ok (range_formula 3 5 0x1.1a62633145c07p-54 1 9)
     ∧ 9%float = square_value libm_at_right_angle (3 * 1)
     ∧ range_formula 3 5 0x1.1a62633145c07p-54 1 9 = 0x1.20309ccfcb823p-52%float).
Proof.
  split; [split; [|reflexivity]|split; [reflexivity|split; [|split; [|reflexivity]]]].
  - apply (proj1 (displacement_is_range_formula libm_at_zero unit_projectile
                    1 5 1 0 0 eq_refl eq_refl eq_refl eq_refl eq_refl eq_refl)).
  - apply (proj1 (displacement_is_range_formula libm_at_right_angle
                    upright_projectile 3 5 0x1.1a62633145c07p-54 1 9
                    eq_refl eq_refl eq_refl eq_refl eq_refl eq_refl)).
  - apply (proj2 (displacement_is_range_formula libm_at_right_angle
                    upright_projectile 3 5 0x1.1a62633145c07p-54 1 9
                    eq_refl eq_refl eq_refl eq_refl eq_refl eq_refl)).
    reflexivity.
Defined.

(** C1 as stated fails on a discriminant that is not negative.
    [Projectile(2.0 ** 600, 0, 90)]: sin θ is 1, the square of the vertical
    speed, 2^1200, is beyond the binary64 numbers and the displacement is an
    overflow error. [Projectile(10 ** 400, 5, 0)]: sin θ is 0, the
    discriminant is 2·g·5 = 98.1, and the displacement is the overflow error
    of an [int] too large for a [float], raised by speed · cos θ. *)
Lemma displacement_overflow_counterexample :
  (Projectile.__init__ (PyFloat 0x1p+600) (PyInt 0) (PyInt 90) = Ok steep_projectile
   ∧ math_sin libm_at_right_angle (Projectile.__angle steep_projectile) = Ok 1%float
   ∧ Projectile.__calculate_displacement libm_at_right_angle steep_projectile
     = Raise OverflowError_result_range)
  ∧ (Projectile.__init__ (PyInt (10 ^ 400)) (PyInt 5) (PyInt 0) = Ok huge_projectile
     ∧ math_sin libm_at_zero (Projectile.__angle huge_projectile) = Ok 0%float
     ∧ (0 <=? 2 * GRAVITATIONAL_ACCELERATION * 5)%float = true
     ∧ Projectile.__calculate_displacement libm_at_zero huge_projectile
       = Raise OverflowError_int_too_large).
Proof. repeat split; reflexivity. Qed.

(** From 5 m below the reference plane the discriminant is negative and the
    displacement is a domain error; from 5 m above, the displacement has a
    value. So it is at 90 degrees, where the square of the vertical speed is
    9: a discriminant of 9 − 98.1 from below, of 9 + 98.1 from above. *)
Lemma displacement_domain_error_witness :
  (Projectile.__calculate_displacement libm_at_zero sunk_projectile
   = Raise ValueError_math_domain
   ∧ returns (Projectile.__calculate_displacement libm_at_zero unit_projectile))
  ∧ (Projectile.__calculate_displacement libm_at_right_angle upright_sunk_projectile
     = Raise ValueError_math_domain
     ∧ returns (Projectile.__calculate_displacement libm_at_right_angle
                  upright_projectile)
     ∧ 9%float = square_value libm_at_right_angle (3 * 1)).
Proof.
  split; [split|split; [|split]].
  - apply (proj1 (displacement_domain_error libm_at_zero sunk_projectile
                    1 (-5) 0 0 eq_refl eq_refl eq_refl eq_refl)).
    reflexivity.
  - apply (proj1 (proj2 (displacement_domain_error libm_at_zero unit_projectile
                           1 5 0 0 eq_refl eq_refl eq_refl eq_refl)));
      [reflexivity|]. by exists 1%float.
  - apply (proj1 (displacement_domain_error libm_at_right_angle
                    upright_sunk_projectile 3 (-5) 1 9
                    eq_refl eq_refl eq_refl eq_refl)).
    reflexivity.
  - apply (proj1 (proj2 (displacement_domain_error libm_at_right_angle
                           upright_projectile 3 5 1 9
                           eq_refl eq_refl eq_refl eq_refl)));
      [reflexivity|]. by exists 0x1.1a62633145c07p-54%float.
  - apply (proj2 (proj2 (displacement_domain_error libm_at_right_angle
                           upright_projectile 3 5 1 9
                           eq_refl eq_refl eq_refl eq_refl))).
    reflexivity.
Defined.

(** C6 as stated fails in both halves. [Projectile(10 ** 400, -5, 0)]: sin θ
    is 0 and the discriminant is 2·g·(−5) = −98.1, yet the error is not the
    domain error but the overflow of an [int] too large for a [float], raised
    by speed · cos θ before the square root is reached.
    [Projectile(2.0 ** 600, 0, 90)]: the discriminant is not negative, yet
    the displacement is an overflow error, that of the square. *)
Lemma domain_error_counterexample :
  (Projectile.__init__ (PyInt (10 ^ 400)) (PyInt (-5)) (PyInt 0)
   = Ok huge_sunk_projectile
   ∧ math_sin libm_at_zero (Projectile.__angle huge_sunk_projectile) = Ok 0%float
   ∧ (2 * GRAVITATIONAL_ACCELERATION * (-5) <? 0)%float = true
   ∧ Projectile.__calculate_displacement libm_at_zero huge_sunk_projectile
     = Raise OverflowError_int_too_large)
  ∧ (math_sin libm_at_right_angle (Projectile.__angle steep_projectile) = Ok 1%float
     ∧ float_pow_2 libm_at_right_angle (0x1p+600 * 1) = Raise OverflowError_result_range
     ∧ Projectile.__calculate_displacement libm_at_right_angle steep_projectile
       = Raise OverflowError_result_range).
Proof. repeat split; reflexivity. Qed.

(** A square beyond the binary64 range has no value: [(2.0 ** 600) ** 2] is
    an overflow error, and so is the displacement of a projectile whose
    vertical speed is that large. *)
Lemma square_overflows :
  float_pow_2 libm_at_zero 0x1p+600 = Raise OverflowError_result_range.
Proof. reflexivity. Qed.

(** [Projectile(1, 5, 0)] at x = 1: 5 − 9.81/2. *)
Lemma y_coordinate_is_height_formula_witness :
  Projectile.__calculate_y_coordinate libm_at_zero unit_projectile 1
  = Ok (height_formula 5 1 1 0 2)
  ∧ height_formula 5 1 1 0 2 = 0x1.851eb851eb84p-4%float.
Proof.
  split; [|reflexivity].
  by apply (y_coordinate_is_height_formula libm_at_zero unit_projectile
              1 5 0 1 1 2).
Defined.

(** C2 as stated fails at [Projectile(2.0 ** -600, 5, 0)]: the speed is not
    zero and cos θ is 1, yet the square of the speed, 2^-1200, underflows to
    zero on every platform and the height at x = 1 is a division by zero. *)
Lemma y_coordinate_formula_counterexample :
  Projectile.__init__ (PyFloat 0x1p-600) (PyInt 5) (PyInt 0) = Ok slow_projectile
  ∧ py_is_zero (Projectile.__speed slow_projectile) = false
  ∧ math_cos libm_at_zero (Projectile.__angle slow_projectile) = Ok 1%float
  ∧ float_pow_2 libm_at_zero 0x1p-600 = Ok 0%float
  ∧ Projectile.__calculate_y_coordinate libm_at_zero slow_projectile 1
    = Raise ZeroDivisionError_float.
Proof. repeat split; reflexivity. Qed.



(** At 90 degrees the stored angle is the binary64 number nearest to π/2,
    whose cosine is not zero. On a C library that rounds this cosine and its
    square correctly, [Projectile(10, 5, 90)] never divides by zero. *)
Lemma right_angle_no_zero_division libm x :
  c_cos libm 0x1.921fb54442d18p+0 = 0x1.1a62633145c07p-54%float →
  c_pow libm 0x1.1a62633145c07p-54 2
  = (0x1.1a62633145c07p-54 * 0x1.1a62633145c07p-54)%float →
  Projectile.__init__ (PyInt 10) (PyInt 5) (PyInt 90)
  = Ok {| Projectile.__speed := PyInt 10; Projectile.__height := PyInt 5;
          Projectile.__angle := 0x1.921fb54442d18p+0 |}
  ∧ Projectile.__calculate_y_coordinate libm
      {| Projectile.__speed := PyInt 10; Projectile.__height := PyInt 5;
         Projectile.__angle := 0x1.921fb54442d18p+0 |} x
    ≠ Raise ZeroDivisionError_float.
Proof.
  intros Hcos Hpow. split; [reflexivity|].
  intros (t & xf & x2f & den & _ & _ & _ & Hden & Hz)%zero_division_characterised.
  unfold denominator, math_cos, math_1 in Hden. simpl in Hden.
  rewrite Hcos in Hden. simpl in Hden. unfold float_pow_2 in Hden. simpl in Hden.
  rewrite Hpow in Hden. vm_compute in Hden. injection Hden as <-. done.
Qed.

(** [Projectile(1, 5, 0)]: two samples, at x = 0 and x = 1. *)
Lemma all_coordinates_sampled_witness :
  ∃ pts,
    Projectile.calculate_all_coordinates libm_at_zero unit_projectile = Ok pts ∧
    length pts = 2%nat ∧
    ∀ i, (i < 2)%nat →
      ∃ y, pts !! i = Some (Z.of_nat i, y) ∧
           Projectile.__calculate_y_coordinate libm_at_zero unit_projectile
             (Z.of_nat i) = Ok y.
Proof.
  apply (proj1 (all_coordinates_sampled libm_at_zero unit_projectile
                  0x1.02779b5637841p+0 2 eq_refl eq_refl)).
  intros x Hx. assert (x = 0 ∨ x = 1) as [-> | ->] by lia; by eexists.
Defined.

(** C3 as stated fails twice. [Projectile(2.0 ** -600, 5, 0)] has a
    displacement, 2.43e-181 m, and sampling raises a division by zero at
    x = 0. [Projectile(2.0 ** 1023, 2.0 ** 100, 0)] has the displacement
    [inf], whose ceiling is an overflow error. *)
Lemma all_coordinates_counterexample :
  (Projectile.__calculate_displacement libm_at_zero slow_projectile
   = Ok 0x1.02779b5637841p-600%float
   ∧ Projectile.calculate_all_coordinates libm_at_zero slow_projectile
     = Raise ZeroDivisionError_float)
  ∧ (Projectile.__calculate_displacement libm_at_zero fast_projectile
     = Ok infinity
     ∧ Projectile.calculate_all_coordinates libm_at_zero fast_projectile
       = Raise OverflowError_inf_to_int).
Proof. repeat split; reflexivity. Qed.

(** ** Graph *)

Section GraphProperties.
Import Graph.

Lemma list_index_nonneg len i :
  0 ≤ i < Z.of_nat len → list_index len i = Ok (Z.to_nat i).
Proof.
  intros Hi. unfold list_index.
  destruct (Z.ltb_spec i 0); [lia|].
  destruct (Z.ltb_spec i 0); [lia|].
  destruct (Z.leb_spec (Z.of_nat len) i); [lia|]. done.
Qed.

Lemma list_index_negative len i :
  - Z.of_nat len ≤ i < 0 → list_index len i = Ok (Z.to_nat (i + Z.of_nat len)).
Proof.
  intros Hi. unfold list_index.
  destruct (Z.ltb_spec i 0); [|lia].
  destruct (Z.ltb_spec (i + Z.of_nat len) 0); [lia|].
  destruct (Z.leb_spec (Z.of_nat len) (i + Z.of_nat len)); [lia|]. done.
Qed.

Lemma mark_raises g p e : mark g p = Raise e → e = IndexError_list.
Proof.
  destruct p as [x y]. unfold mark.
  intros [H|(row & _ & [H|(row' & _ & H)]%bind_Raise)]%bind_Raise.
  - by apply getitem_raises in H.
  - by apply setitem_raises in H.
  - by apply setitem_raises in H.
Qed.

Lemma for_each_mark_raises l g e :
  for_each mark l g = Raise e → e = IndexError_list.
Proof.
  revert g. induction l as [|p l IH]; intros g; simpl; [done|].
  intros [H|(g' & _ & H)]%bind_Raise; [by apply mark_raises in H|by eapply IH].
Qed.

Lemma rounded_coords_raises self e :
  rounded_coords self = Raise e →
  e = ValueError_nan_to_int ∨ e = OverflowError_inf_to_int.
Proof.
  unfold rounded_coords. intros ([x y] & _ & H)%mapM_Raise.
  apply bind_Raise in H as [H|(ry & _ & [=])]. by apply py_round_raises in H.
Qed.

Lemma rounded_coords_length self rc :
  rounded_coords self = Ok rc → length rc = length (__coordinates self).
Proof. intros H%mapM_Ok_inv. symmetry. by eapply Forall2_length. Qed.

Lemma draw_raises g e : draw g = Raise e → e = IndexError_list.
Proof.
  unfold draw. intros [H|(first & _ & [=])]%bind_Raise.
  by apply getitem_raises in H.
Qed.

(** C8. On an empty point sequence [create_trajectory] raises the error
    of [max] on an empty sequence; on a sequence with at least one point it
    never raises that error. *)
Theorem create_trajectory_empty_input p coords :
  create_trajectory (__init__ []) = Raise ValueError_max_empty
  ∧ create_trajectory (__init__ (p :: coords)) ≠ Raise ValueError_max_empty.
Proof.
  split; [done|]. unfold create_trajectory.
  intros [H|(g & _ & H)]%bind_Raise; [|by apply draw_raises in H].
  unfold matrix_list in H.
  apply bind_Raise in H as [H|(rc & Hrc & H)];
    [by apply rounded_coords_raises in H as [|]|].
  apply rounded_coords_length in Hrc. destruct rc as [|q rc]; [done|].
  unfold py_max in H. run_in H. by apply for_each_mark_raises in H.
Qed.

Lemma py_max_fold {A} (key : A → Z) (l : list A) (b : A) :
  let r := fold_left (λ best item, if key best <? key item then item else best) l b in
  (r = b ∨ r ∈ l) ∧ key b ≤ key r ∧ ∀ x, x ∈ l → key x ≤ key r.
Proof.
  revert b. induction l as [|a l IH]; intros b; simpl.
  - split; [by left|]. split; [lia|]. by intros x ?%elem_of_nil.
  - destruct (IH (if key b <? key a then a else b)) as (Hr & Hb & Hl).
    split; [|split].
    + destruct Hr as [->|Hr]; [|right; by right].
      destruct (key b <? key a); [right; left|by left].
    + destruct (Z.ltb_spec (key b) (key a)); lia.
    + intros x [->|Hx]%elem_of_cons; [|by apply Hl].
      destruct (Z.ltb_spec (key b) (key a)); lia.
Qed.

Lemma py_max_is_maximum {A} (key : A → Z) (l : list A) :
  l ≠ [] → ∃ a, py_max key l = Ok a ∧ is_maximum (key a) (key <$> l).
Proof.
  destruct l as [|b l]; [done|]. intros _. eexists. split; [done|].
  destruct (py_max_fold key l b) as (Hr & Hb & Hl). split.
  - apply list_elem_of_fmap. eexists. split; [done|].
    destruct Hr as [->|Hr]; [left|by right].
  - intros z (x & -> & [->|Hx]%elem_of_cons)%list_elem_of_fmap; auto.
Qed.

Lemma is_maximum_unique m m' l : is_maximum m l → is_maximum m' l → m = m'.
Proof. intros [H1 H2] [H1' H2']. apply H2 in H1'. apply H2' in H1. lia. Qed.

Lemma cell_insert g j k s row r c :
  g !! j = Some row → (k < length row)%nat →
  cell (<[j := <[k := s]> row]> g) r c =
  if decide (r = j ∧ c = k) then Some s else cell g r c.
Proof.
  intros Hrow Hk. unfold cell.
  pose proof (lookup_lt_Some _ _ _ Hrow) as Hj.
  destruct (decide (r = j)) as [->|Hr].
  - rewrite list_lookup_insert_eq by done. rewrite Hrow. simpl.
    destruct (decide (c = k)) as [->|Hc].
    + rewrite list_lookup_insert_eq by done. by rewrite decide_True.
    + rewrite list_lookup_insert_ne by done.
      rewrite decide_False; [done|by intros [_ ?]].
  - rewrite list_lookup_insert_ne by done.
    rewrite decide_False; [done|by intros [? _]].
Qed.

Lemma mark_in_range h w g x y :
  grid_shape h w g → 0 ≤ x < Z.of_nat w → 0 ≤ y < Z.of_nat h →
  ∃ row,
    g !! Z.to_nat (Z.of_nat h - 1 - y) = Some row ∧
    mark g (x, y)
    = Ok (<[Z.to_nat (Z.of_nat h - 1 - y) := <[Z.to_nat x := PROJECTILE]> row]> g).
Proof.
  intros [Hh Hw] Hx Hy. unfold mark, getitem, setitem.
  rewrite Hh, list_index_negative by lia.
  replace (-1 - y + Z.of_nat h) with (Z.of_nat h - 1 - y) by lia. run.
  destruct (lookup_lt_is_Some_2 g (Z.to_nat (Z.of_nat h - 1 - y)) ltac:(lia))
    as [row Hrow].
  exists row. split; [done|]. rewrite Hrow. cbv beta iota. run.
  rewrite (Forall_lookup_1 _ _ _ _ Hw Hrow), list_index_nonneg by lia. by run.
Qed.

Lemma mark_shape h w g p g' :
  grid_shape h w g → mark g p = Ok g' → grid_shape h w g'.
Proof.
  intros [Hh Hw]. destruct p as [x y]. unfold mark, getitem, setitem.
  intros (row & (j & Hj & Hrow)%bind_Ok & (row' & (k & Hk & [= <-])%bind_Ok
    & (j' & Hj' & [= <-])%bind_Ok)%bind_Ok)%bind_Ok.
  destruct (g !! j) as [row0|] eqn:E; [|done]. injection Hrow as ->.
  split; [by rewrite length_insert|].
  apply Forall_insert; [done|]. rewrite length_insert.
  exact (Forall_lookup_1 _ _ _ _ Hw E).
Qed.

(** Marking the points of [l] one after the other on a grid [g] whose shape
    holds them all. *)
Lemma for_each_mark h w g l :
  grid_shape h w g →
  (∀ x y, (x, y) ∈ l → 0 ≤ x < Z.of_nat w ∧ 0 ≤ y < Z.of_nat h) →
  ∃ g',
    for_each mark l g = Ok g' ∧ grid_shape h w g' ∧
    ∀ r c, (r < h)%nat → (c < w)%nat →
      cell g' r c =
      if decide ((Z.of_nat c, Z.of_nat h - 1 - Z.of_nat r) ∈ l)
      then Some PROJECTILE else cell g r c.
Proof.
  revert g. induction l as [|[x y] l IH]; intros g Hg Hl.
  - exists g. split; [done|]. split; [done|]. intros r c _ _.
    case_decide as Hin; [by apply elem_of_nil in Hin|done].
  - destruct (Hl x y ltac:(left)) as [Hx Hy].
    destruct (mark_in_range h w g x y Hg Hx Hy) as (row & Hrow & Hmark).
    pose proof (mark_shape h w g (x, y) _ Hg Hmark) as Hg1.
    destruct (IH _ Hg1) as (g' & Hfor & Hg' & Hcell).
    { intros x' y' Hin. apply Hl. by right. }
    exists g'. split; [|split; [done|]].
    { cbn [for_each]. rewrite Hmark. by run. }
    intros r c Hr Hc. rewrite (Hcell r c Hr Hc).
    destruct Hg as [_ Hw].
    rewrite cell_insert;
      [|done|rewrite (Forall_lookup_1 _ _ _ _ Hw Hrow); lia].
    destruct (decide ((Z.of_nat c, Z.of_nat h - 1 - Z.of_nat r) ∈ l)) as [Hin|Hin];
      destruct (decide (r = Z.to_nat (Z.of_nat h - 1 - y) ∧ c = Z.to_nat x))
        as [Heq|Hne];
      destruct (decide ((Z.of_nat c, Z.of_nat h - 1 - Z.of_nat r) ∈ (x, y) :: l))
        as [Hin'|Hin']; try done.
    all: try (exfalso; apply Hin'; by right).
    + exfalso. apply Hin', elem_of_cons. left. destruct Heq as [-> ->]. f_equal; lia.
    + apply elem_of_cons in Hin' as [[= Hc' Hr']|?]; [|done].
      exfalso. apply Hne. lia.
Qed.

Lemma grid_shape_replicate h w s : grid_shape h w (replicate h (replicate w s)).
Proof.
  split; [by rewrite length_replicate|].
  apply Forall_replicate. by rewrite length_replicate.
Qed.

Lemma cell_replicate h w s r c :
  (r < h)%nat → (c < w)%nat → cell (replicate h (replicate w s)) r c = Some s.
Proof.
  intros Hr Hc. unfold cell. rewrite lookup_replicate_2 by done. simpl.
  by rewrite lookup_replicate_2.
Qed.

(** What lines 169 to 177 of [create_trajectory] build when no rounded
    coordinate is negative. *)
Lemma matrix_list_spec self rc xm ym :
  rounded_coords self = Ok rc →
  (∀ x y, (x, y) ∈ rc → 0 ≤ x ∧ 0 ≤ y) →
  is_maximum xm rc.*1 → is_maximum ym rc.*2 →
  ∃ grid,
    matrix_list self = Ok grid ∧
    grid_shape (Z.to_nat (ym + 1)) (Z.to_nat (xm + 1)) grid ∧
    ∀ r c, (r < Z.to_nat (ym + 1))%nat → (c < Z.to_nat (xm + 1))%nat →
      cell grid r c =
      Some (if decide ((Z.of_nat c, ym - Z.of_nat r) ∈ rc)
            then PROJECTILE else lit " ").
Proof.
  intros Hrc Hpos Hxm Hym.
  assert (rc ≠ []) as Hne.
  { destruct Hxm as [Hin _]. intros ->. by apply elem_of_nil in Hin. }
  destruct (py_max_is_maximum fst rc Hne) as (px & Hpx & Hx).
  destruct (py_max_is_maximum snd rc Hne) as (py & Hpy & Hy).
  pose proof (is_maximum_unique _ _ _ Hx Hxm) as Ex.
  pose proof (is_maximum_unique _ _ _ Hy Hym) as Ey.
  assert (∀ x y, (x, y) ∈ rc → 0 ≤ x ≤ xm ∧ 0 ≤ y ≤ ym) as Hb.
  { intros x y Hin. destruct (Hpos x y Hin). destruct Hxm as [_ Hxm], Hym as [_ Hym].
    split; (split; [done|]).
    - apply Hxm, list_elem_of_fmap. by exists (x, y).
    - apply Hym, list_elem_of_fmap. by exists (x, y). }
  assert (0 ≤ xm ∧ 0 ≤ ym) as [Hxm0 Hym0].
  { destruct rc as [|[x y] rc]; [done|]. destruct (Hb x y ltac:(left)). lia. }
  destruct (for_each_mark (Z.to_nat (ym + 1)) (Z.to_nat (xm + 1))
              (replicate (Z.to_nat (ym + 1)) (replicate (Z.to_nat (xm + 1)) (lit " ")))
              rc (grid_shape_replicate _ _ _)) as (g & Hg & Hshape & Hcell).
  { intros x y Hin. destruct (Hb x y Hin). lia. }
  exists g. split; [|split; [done|]].
  - unfold matrix_list. rewrite Hrc; run. rewrite Hpx, Hpy; run.
    by rewrite Ex, Ey.
  - intros r c Hr Hc. rewrite (Hcell r c Hr Hc), cell_replicate by done.
    replace (Z.of_nat (Z.to_nat (ym + 1)) - 1 - Z.of_nat r) with (ym - Z.of_nat r) by lia.
    by case_decide.
Qed.

Lemma concat_unit_length (row : list str) :
  Forall (λ s, length s = 1%nat) row → length (concat row) = length row.
Proof.
  induction 1 as [|s row Hs _ IH]; simpl; [done|].
  rewrite length_app. lia.
Qed.




(** The cells of a row of the grid, each one code point wide. *)
Lemma grid_row_cells h w grid (P : str → Prop) :
  grid_shape h w grid →
  (∀ r c, (r < h)%nat → (c < w)%nat → ∃ s, cell grid r c = Some s ∧ P s) →
  Forall (Forall P) grid.
Proof.
  intros [Hh Hw] Hcell. apply Forall_lookup. intros r row Hrow.
  apply Forall_lookup. intros c s Hs.
  pose proof (lookup_lt_Some _ _ _ Hrow) as Hr.
  pose proof (lookup_lt_Some _ _ _ Hs) as Hc.
  rewrite (Forall_lookup_1 _ _ _ _ Hw Hrow) in Hc.
  destruct (Hcell r c ltac:(lia) Hc) as (s' & Hs' & HP).
  unfold cell in Hs'. rewrite Hrow in Hs'. simpl in Hs'. congruence.
Qed.

Lemma draw_spec h w grid :
  grid_shape (S h) w grid →
  Forall (Forall (λ s, length s = 1%nat)) grid →
  draw grid =
  Ok (newline
      ++ join newline
           (((λ row, y_axis_tick ++ row) <$> ((λ line, concat line) <$> grid))
            ++ [lit " " ++ str_repeat x_axis_tick (Z.of_nat w)])
      ++ newline).
Proof.
  intros [Hh Hw] Hcells. destruct grid as [|row grid]; [done|].
  apply Forall_cons in Hcells as [Hrow _]. apply Forall_cons in Hw as [Hlen _].
  unfold draw, getitem.
  rewrite list_index_nonneg by (rewrite length_fmap; simpl; lia). run.
  change (Z.to_nat 0) with 0%nat. cbn [fmap list_fmap lookup list_lookup]. run.
  by rewrite (concat_unit_length _ Hrow), Hlen.
Qed.

(** C4. Let [rc] be the rounded points, none of them with a negative
    coordinate, and [xm], [ym] the greatest rounded x and y.
    [create_trajectory] builds a grid of ym + 1 rows of xm + 1 cells and
    returns its text; the cell at row r, column c holds the projectile marker
    when some rounded point (x, y) has x = c and ym − y = r (however many
    points fall there), and a space otherwise. The single point (3, 4) gives
    5 rows of 4 cells with the marker at row 0, column 3: the text returned
    has the marker at the end of its first grid line. *)
Theorem trajectory_grid self rc xm ym :
  rounded_coords self = Ok rc →
  (∀ x y, (x, y) ∈ rc → 0 ≤ x ∧ 0 ≤ y) →
  is_maximum xm rc.*1 → is_maximum ym rc.*2 →
  (∃ grid,
     matrix_list self = Ok grid ∧
     create_trajectory self = Ok (grid_text (xm + 1) grid) ∧
     length grid = Z.to_nat (ym + 1) ∧
     Forall (λ row, length row = Z.to_nat (xm + 1)) grid ∧
     ∀ r c, (r < Z.to_nat (ym + 1))%nat → (c < Z.to_nat (xm + 1))%nat →
       cell grid r c =
       Some (if decide ((Z.of_nat c, ym - Z.of_nat r) ∈ rc)
             then PROJECTILE else lit " "))
  ∧ matrix_list (__init__ [(3, 4%float)])
    = Ok [ [lit " "; lit " "; lit " "; PROJECTILE];
           [lit " "; lit " "; lit " "; lit " "];
           [lit " "; lit " "; lit " "; lit " "];
           [lit " "; lit " "; lit " "; lit " "];
           [lit " "; lit " "; lit " "; lit " "] ]
  ∧ create_trajectory (__init__ [(3, 4%float)])
    = Ok (newline
          ++ y_axis_tick ++ lit "   " ++ PROJECTILE ++ newline
          ++ y_axis_tick ++ lit "    " ++ newline
          ++ y_axis_tick ++ lit "    " ++ newline
          ++ y_axis_tick ++ lit "    " ++ newline
          ++ y_axis_tick ++ lit "    " ++ newline
          ++ lit " TTTT" ++ newline).
Proof.
  intros Hrc Hpos Hxm Hym. split; [|split; reflexivity].
  destruct (matrix_list_spec self rc xm ym Hrc Hpos Hxm Hym)
    as (g & Hg & [Hh Hw] & Hcell).
  assert (0 ≤ xm ∧ 0 ≤ ym) as [Hxm0 Hym0].
  { destruct Hxm as [(p & -> & Hp)%list_elem_of_fmap _].
    destruct Hym as [_ Hym']. destruct p as [x y]. destruct (Hpos x y Hp).
    split; [done|]. etrans; [|apply Hym', list_elem_of_fmap; by exists (x, y)]. done. }
  exists g. split; [done|]. split; [|done].
  unfold create_trajectory. rewrite Hg; run.
  rewrite (draw_spec (Z.to_nat ym) (Z.to_nat (xm + 1))).
  - unfold grid_text. by rewrite Z2Nat.id by lia.
  - split; [rewrite Hh; lia|done].
  - eapply grid_row_cells; [by split|]. intros r c Hr Hc. eexists.
    split; [by apply Hcell|]. by case_decide.
Qed.


Lemma table_fold (coords : list (Z * float)) (table : str) :
  fold_left
    (λ table '(x, y),
       table ++ rjust 3 (str_of_int x) ++ rjust 7 (format_2f y) ++ newline)
    coords table
  = table ++ concat (table_row <$> coords).
Proof.
  revert table. induction coords as [|[x y] coords IH]; intros table; simpl.
  - by rewrite app_nil_r.
  - rewrite IH. unfold table_row at 2. simpl. by rewrite <- !app_assoc.
Qed.

(** Right alignment: spaces in front, up to the width. *)
Lemma rjust_spec w s :
  length (rjust w s) = (w `max` length s)%nat
  ∧ ∃ pad, rjust w s = pad ++ s ∧ Forall (λ c, c = 32%N) pad.
Proof.
  unfold rjust. split.
  - rewrite length_app, length_replicate. lia.
  - eexists. split; [done|]. by apply Forall_replicate.
Qed.

(** C5, as amended. [create_coordinates_table] returns a line break, the
    header row "  x      y" (x right-aligned in 3 columns, y in 7) and a line
    break, then one row per point in input order: x right-aligned in 3
    columns (more when x has more than 3 characters), y with 2 decimals
    right-aligned in 7 (more when it has more than 7), and a line break. For
    the points [(0, 0.0), (1, 0.95)] that is a line break followed by the
    three lines of §8. *)
Theorem table_layout self :
  create_coordinates_table self
  = newline ++ lit "  x      y" ++ newline
    ++ concat (table_row <$> __coordinates self)
  ∧ lit "  x      y" = rjust 3 (lit "x") ++ rjust 7 (lit "y")
  ∧ (∀ p, ∃ pad_x pad_y,
       table_row p
       = (pad_x ++ str_of_int p.1) ++ (pad_y ++ format_2f p.2) ++ newline ∧
       Forall (λ c, c = 32%N) pad_x ∧ Forall (λ c, c = 32%N) pad_y ∧
       length (pad_x ++ str_of_int p.1) = (3 `max` length (str_of_int p.1))%nat ∧
       length (pad_y ++ format_2f p.2) = (7 `max` length (format_2f p.2))%nat)
  ∧ create_coordinates_table (__init__ [(0, 0%float); (1, 0.95%float)])
    = newline ++ lit "  x      y" ++ newline
      ++ lit "  0   0.00" ++ newline
      ++ lit "  1   0.95" ++ newline.
Proof.
  split; [|split; [reflexivity|split; [|reflexivity]]].
  - unfold create_coordinates_table. rewrite table_fold. by rewrite <- !app_assoc.
  - intros p. unfold table_row.
    destruct (rjust_spec 3 (str_of_int p.1)) as (Lx & pad_x & Ex & Px).
    destruct (rjust_spec 7 (format_2f p.2)) as (Ly & pad_y & Ey & Py).
    exists pad_x, pad_y. rewrite <- Ex, <- Ey. by repeat split.
Qed.

End GraphProperties.

(** C5 as stated fails on the points of §8: the text begins with a line
    break, before the header, and the header begins with two spaces. *)
Lemma table_layout_counterexample :
  Graph.create_coordinates_table (Graph.__init__ [(0, 0%float); (1, 0.95%float)])
  ≠ table_as_specified (lit " x      y") [(0, 0%float); (1, 0.95%float)]
  ∧ Graph.create_coordinates_table (Graph.__init__ [(0, 0%float); (1, 0.95%float)])
    ≠ table_as_specified (lit "  x      y") [(0, 0%float); (1, 0.95%float)].
Proof. split; intros H; vm_compute in H; discriminate H. Qed.

(** ** From the trajectory to the plot *)

(** A trajectory whose displacement is at most zero has no sample, and its
    plot is the error of [max] on an empty sequence. *)
Lemma degenerate_trajectory_has_no_plot libm self d n pts :
  Projectile.__calculate_displacement libm self = Ok d →
  math_ceil d = Ok n → (d <=? 0)%float = true →
  Projectile.calculate_all_coordinates libm self = Ok pts →
  Graph.create_trajectory (Graph.__init__ pts) = Raise ValueError_max_empty.
Proof.
  intros Hd Hn Hle. unfold Projectile.calculate_all_coordinates.
  rewrite Hd; run. rewrite Hn; run.
  pose proof (math_ceil_nonpos d n Hn Hle).
  unfold range. replace (Z.to_nat n) with 0%nat by lia. by intros [= <-].
Qed.

(** *** At a sample plot *)

(** A membership in a list given by its elements, split in its cases. *)
Ltac elem_cases H :=
  repeat (apply elem_of_cons in H as [H|H]); [..|by apply elem_of_nil in H].

(** Four points, the last two of which round to the same cell. *)
Lemma trajectory_grid_witness :
  ∃ grid,
    Graph.matrix_list
      (Graph.__init__ [(0, 0%float); (1, 0.95%float); (2, 1.5%float); (2, 2.5%float)])
    = Ok grid ∧
    Graph.create_trajectory
      (Graph.__init__ [(0, 0%float); (1, 0.95%float); (2, 1.5%float); (2, 2.5%float)])
    = Ok (grid_text (2 + 1) grid) ∧
    length grid = 3%nat ∧
    Forall (λ row, length row = 3%nat) grid ∧
    ∀ r c, (r < 3)%nat → (c < 3)%nat →
      cell grid r c =
      Some (if decide ((Z.of_nat c, 2 - Z.of_nat r) ∈ [(0, 0); (1, 1); (2, 2); (2, 2)])
            then PROJECTILE else lit " ").
Proof.
  apply (proj1 (trajectory_grid
    (Graph.__init__ [(0, 0%float); (1, 0.95%float); (2, 1.5%float); (2, 2.5%float)])
    [(0, 0); (1, 1); (2, 2); (2, 2)] 2 2 eq_refl
    ltac:(intros x y H; elem_cases H; injection H as -> ->; lia)
    ltac:(split; [simpl; repeat constructor|intros z H; simpl in H; elem_cases H; lia])
    ltac:(split; [simpl; repeat constructor|intros z H; simpl in H; elem_cases H; lia]))).
Defined.


(** * Further properties of the code *)

(** ** More binary64 facts *)

(** Rounding a mantissa that is not negative keeps the sign and never gives
    a NaN. *)
Lemma binary_round_aux_sign s mx ex lx :
  0 ≤ mx →
  match binary_round_aux prec emax s mx ex lx with
  | S754_zero s' | S754_infinity s' | S754_finite s' _ _ => s' = s
  | S754_nan => False
  end.
Proof.
  intros Hmx. unfold binary_round_aux.
  pose proof (shr_fexp_bounds mx ex lx Hmx) as [Hm1 _].
  destruct (shr_fexp prec emax mx ex lx) as [mrs1 e1]; simpl in Hm1.
  pose proof (round_nearest_even_bounds (shr_m mrs1) (loc_of_shr_record mrs1)
                ltac:(lia)) as Hr.
  set (m1 := round_nearest_even (shr_m mrs1) (loc_of_shr_record mrs1)) in *.
  pose proof (shr_fexp_bounds m1 e1 loc_Exact ltac:(lia)) as [Hm2 _].
  destruct (shr_fexp prec emax m1 e1 loc_Exact) as [mrs2 e2]; simpl in Hm2.
  destruct (shr_m mrs2) as [|p|p]; [done| |lia].
  by destruct (e2 <=? emax - prec).
Qed.

(** Adding or subtracting a zero leaves the number as it is. *)
Lemma float_add_0_l (x y : float) :
  (x =? 0)%float = true → same_number (Prim2SF (x + y)) (Prim2SF y).
Proof.
  rewrite eqb_0_Prim2SF, add_spec. unfold SF64add, SFadd, same_number.
  destruct (Prim2SF x) as [sx|sx| |sx mx ex]; try done. intros _.
  destruct (Prim2SF y) as [sy|sy| |sy my ey]; auto.
  right. destruct sx, sy; eauto.
Qed.

Lemma float_add_0_r (x y : float) :
  (y =? 0)%float = true → same_number (Prim2SF (x + y)) (Prim2SF x).
Proof.
  rewrite eqb_0_Prim2SF, add_spec. unfold SF64add, SFadd, same_number.
  destruct (Prim2SF y) as [sy|sy| |sy my ey]; try done. intros _.
  destruct (Prim2SF x) as [sx|sx| |sx mx ex]; auto.
  right. destruct sx, sy; eauto.
Qed.

Lemma float_sub_0_r (x y : float) :
  (y =? 0)%float = true → same_number (Prim2SF (x - y)) (Prim2SF x).
Proof.
  rewrite eqb_0_Prim2SF, sub_spec. unfold SF64sub, SFsub, same_number.
  destruct (Prim2SF y) as [sy|sy| |sy my ey]; try done. intros _.
  destruct (Prim2SF x) as [sx|sx| |sx mx ex]; auto.
  right. destruct sx, sy; eauto.
Qed.

Lemma same_number_finite a b :
  same_number a b → SF_is_finite a = SF_is_finite b.
Proof. intros [->|(s & s' & Ha & Hb)]; [done|]. by rewrite Ha, Hb. Qed.

Lemma same_number_trans a b c :
  same_number a b → same_number b c → same_number a c.
Proof.
  intros [Hab|(s & s' & Ha & Hb)] [Hbc|(t & t' & Hb' & Hc)]; unfold same_number.
  - left. congruence.
  - right. exists t, t'. split; congruence.
  - right. exists s, s'. split; congruence.
  - right. exists s, t'. split; congruence.
Qed.

Lemma SFcompare_refl a : a ≠ S754_nan → SFcompare a a = Some Eq.
Proof.
  destruct a as [s|s| |s m e]; try done; intros _; simpl.
  - by destruct s.
  - rewrite Z.compare_refl, Pos.compare_cont_refl. by destruct s.
Qed.

Lemma same_number_eqb (x y : float) :
  same_number (Prim2SF x) (Prim2SF y) → is_nan y = false → (x =? y)%float = true.
Proof.
  rewrite is_nan_Prim2SF, FloatAxioms.eqb_spec. unfold SFeqb.
  intros [Hxy|(s & s' & Ha & Hb)] Hn; [|by rewrite Ha, Hb].
  rewrite Hxy, SFcompare_refl; [done|]. by destruct (Prim2SF y).
Qed.

Lemma same_number_leb_0 (x y : float) :
  same_number (Prim2SF x) (Prim2SF y) → (0 <=? x)%float = (0 <=? y)%float.
Proof.
  rewrite !leb_0_Prim2SF.
  intros [Hxy|(s & s' & Ha & Hb)]; [by rewrite Hxy|by rewrite Ha, Hb].
Qed.

(** A zero divided by a number that is neither a zero nor a NaN is a zero. *)
Lemma float_div_0_l (x y : float) :
  (x =? 0)%float = true → (y =? 0)%float = false → is_nan y = false →
  (x / y =? 0)%float = true.
Proof.
  rewrite !eqb_0_Prim2SF, is_nan_Prim2SF, div_spec. unfold SF64div, SFdiv.
  by destruct (Prim2SF x) as [sx|sx| |sx mx ex], (Prim2SF y) as [sy|sy| |sy my ey].
Qed.

Lemma float_mul_0_r (x y : float) :
  is_finite x = true → (y =? 0)%float = true → (x * y =? 0)%float = true.
Proof. intros Hx Hy. rewrite float_mul_comm. by apply float_mul_0_l. Qed.

(** The product of two numbers that are not negative is not negative, unless
    it is a NaN (a zero times an infinity). *)
Lemma float_mul_nonneg (x y : float) :
  (0 <=? x)%float = true → (0 <=? y)%float = true → is_nan (x * y) = false →
  (0 <=? x * y)%float = true.
Proof.
  rewrite !leb_0_Prim2SF, is_nan_Prim2SF, mul_spec. unfold SF64mul, SFmul.
  destruct (Prim2SF x) as [sx|sx| |sx mx ex], (Prim2SF y) as [sy|sy| |sy my ey];
    try done; try (by destruct sx); try (by destruct sy); try (by destruct sx, sy).
  intros Hx Hy _. destruct sx, sy; try done. simpl.
  pose proof (binary_round_aux_sign false (Zpos (mx * my)) (ex + ey) loc_Exact
                ltac:(lia)) as H.
  destruct (binary_round_aux _ _ _ _ _ _); try done; by subst.
Qed.

(** The square root of a finite number that is not negative is finite. *)
Lemma sqrt_finite (d : float) :
  (0 <=? d)%float = true → is_finite d = true → is_finite (PrimFloat.sqrt d) = true.
Proof.
  rewrite leb_0_Prim2SF, !is_finite_Prim2SF, sqrt_spec.
  pose proof (Prim2SF_valid d) as Hv.
  destruct (Prim2SF d) as [s|s| |s m e]; try done.
  destruct s; [done|]. intros _ _. by apply SF64sqrt_finite.
Qed.

Lemma is_finite_not_nan f : is_finite f = true → is_nan f = false.
Proof. rewrite is_finite_Prim2SF, is_nan_Prim2SF. by destruct (Prim2SF f). Qed.

(** A NaN operand gives a NaN result. *)
Lemma float_mul_nan_l (x y : float) : is_nan x = true → is_nan (x * y) = true.
Proof.
  rewrite !is_nan_Prim2SF, mul_spec. unfold SF64mul, SFmul.
  by destruct (Prim2SF x).
Qed.

Lemma float_mul_nan_r (x y : float) : is_nan y = true → is_nan (x * y) = true.
Proof. rewrite float_mul_comm. apply float_mul_nan_l. Qed.

Lemma float_add_nan_l (x y : float) : is_nan x = true → is_nan (x + y) = true.
Proof.
  rewrite !is_nan_Prim2SF, add_spec. unfold SF64add, SFadd.
  by destruct (Prim2SF x).
Qed.

Lemma float_add_nan_r (x y : float) : is_nan y = true → is_nan (x + y) = true.
Proof.
  rewrite !is_nan_Prim2SF, add_spec. unfold SF64add, SFadd.
  by destruct (Prim2SF x) as [| | |], (Prim2SF y).
Qed.

Lemma float_div_nan_l (x y : float) : is_nan x = true → is_nan (x / y) = true.
Proof.
  rewrite !is_nan_Prim2SF, div_spec. unfold SF64div, SFdiv.
  by destruct (Prim2SF x).
Qed.

(** Multiplying by a constant that is neither zero nor infinite: the product
    is a NaN only for a NaN, and infinite for an infinity. *)
Lemma float_mul_finite_nan (x k : float) s m e :
  Prim2SF k = S754_finite s m e → is_nan (x * k) = is_nan x.
Proof.
  intros Hk. rewrite !is_nan_Prim2SF, mul_spec, Hk. unfold SF64mul, SFmul.
  destruct (Prim2SF x) as [sx|sx| |sx mx ex]; try done.
  pose proof (binary_round_aux_sign (xorb sx s) (Zpos (mx * m)) (ex + e) loc_Exact
                ltac:(lia)) as H.
  by destruct (binary_round_aux _ _ _ _ _ _).
Qed.

Lemma float_mul_finite_inf (x k : float) s m e :
  Prim2SF k = S754_finite s m e → is_infinity x = true → is_infinity (x * k) = true.
Proof.
  intros Hk. rewrite !is_infinity_Prim2SF, mul_spec, Hk. unfold SF64mul, SFmul.
  by destruct (Prim2SF x) as [sx|sx| |sx mx ex].
Qed.

(** ** More on what each operation does *)

(** [math.sqrt(nan)] is [nan], not an error. *)
Lemma math_sqrt_nan (d : float) :
  is_nan d = true →
  math_sqrt d = Ok (PrimFloat.sqrt d) ∧ is_nan (PrimFloat.sqrt d) = true.
Proof.
  intros Hd. unfold math_sqrt, math_1. rewrite Hd.
  assert (is_nan (PrimFloat.sqrt d) = true) as Hr.
  { revert Hd. rewrite !is_nan_Prim2SF, sqrt_spec. by destruct (Prim2SF d). }
  assert (is_infinity (PrimFloat.sqrt d) = false) as Hi.
  { revert Hr. rewrite is_nan_Prim2SF, is_infinity_Prim2SF. by destruct (Prim2SF _). }
  by rewrite Hr, Hi.
Qed.

(** The three outcomes of [math.ceil]. *)
Lemma math_ceil_outcome d :
  (is_nan d = true ∧ math_ceil d = Raise ValueError_nan_to_int)
  ∨ (is_infinity d = true ∧ math_ceil d = Raise OverflowError_inf_to_int)
  ∨ (is_finite d = true ∧ returns (math_ceil d)).
Proof.
  rewrite is_nan_Prim2SF, is_infinity_Prim2SF, is_finite_Prim2SF. unfold math_ceil.
  destruct (Prim2SF d) as [s|s| |s m e]; simpl; auto.
  - right; right. split; [done|]. by eexists.
  - right; right. split; [done|]. by eexists.
Qed.

Lemma math_ceil_zero d : (d =? 0)%float = true → math_ceil d = Ok 0.
Proof. rewrite eqb_0_Prim2SF. unfold math_ceil. by destruct (Prim2SF d). Qed.

(** [round] returns on the finite numbers and on no other. *)
Lemma py_round_finite y : is_finite y = true ↔ returns (py_round y).
Proof.
  rewrite is_finite_Prim2SF. unfold py_round, returns.
  destruct (Prim2SF y) as [s|s| |s m e]; simpl; split; try done; try by eexists.
  all: by intros [? [=]].
Qed.

Lemma float_truediv_G_returns a :
  float_truediv a GRAVITATIONAL_ACCELERATION
  = Ok (a / GRAVITATIONAL_ACCELERATION)%float.
Proof. unfold float_truediv. by rewrite G_nonzero. Qed.

(** The float value of a number that is zero. *)
Lemma py_is_zero_float x :
  py_is_zero x = true → ∃ v, PyFloat_AsDouble x = Ok v ∧ (v =? 0)%float = true.
Proof.
  destruct x as [z|f]; simpl.
  - intros ->%Z.eqb_eq. by exists 0%float.
  - intros Hf. by exists f.
Qed.

Lemma mapM_Exists_raises {A B} (f : A → result B) (l : list A) :
  Exists (λ x, raises (f x)) l → raises (mapM f l).
Proof.
  induction 1 as [x l [e He]|x l _ [e IH]]; simpl.
  - exists e. by rewrite He.
  - destruct (f x) as [y|e']; [|by exists e']. run. rewrite IH. by exists e.
Qed.

(** ** Projectile: errors and edge cases *)

Section KinematicsEdgeCases.
Import Projectile.
Context (libm : Libm).

(** An error raised by one of several steps: the cases, each handed to the
    lemma on what that step can raise. *)
Ltac raise_cases H :=
  repeat (apply bind_Raise in H as [H|(? & _ & H)]);
  first
    [ discriminate H
    | apply PyFloat_AsDouble_raises in H
    | apply PyLong_AsDouble_raises in H
    | apply math_1_raises in H
    | apply py_mul_float_raises in H
    | apply float_mul_py_raises in H
    | apply py_add_float_raises in H
    | apply py_mul_raises in H
    | apply float_pow_2_raises in H as [H|H]
    | apply py_pow_2_raises in H as [H|H]
    | idtac ].

Lemma float_pow_2_zero x :
  (x =? 0)%float = true → float_pow_2 libm x = Ok 0%float.
Proof.
  intros Hx. destruct (eqb_0_not_nan_inf x Hx) as [Hn Hi].
  unfold float_pow_2. by rewrite Hn, Hi, Hx.
Qed.

Lemma float_pow_2_nan iv sq :
  float_pow_2 libm iv = Ok sq → is_nan iv = true → is_nan sq = true.
Proof. unfold float_pow_2. intros H Hn. rewrite Hn in H. by injection H as <-. Qed.

(** X1. Whatever the speed, the height and the angle, an error raised by
    [__calculate_displacement] is a domain error of the [math] module, the
    overflow of an [int] too large for a [float], or the overflow of the
    square: the method never raises a division by zero, its only divisor
    being the constant 9.81. *)
Theorem displacement_raises self e :
  __calculate_displacement libm self = Raise e →
  e = ValueError_math_domain ∨ e = OverflowError_int_too_large
  ∨ e = OverflowError_result_range.
Proof.
  unfold __calculate_displacement. intros H. raise_cases H; auto.
Qed.

Lemma displacement_no_zero_division self :
  __calculate_displacement libm self ≠ Raise ZeroDivisionError_float.
Proof.
  unfold __calculate_displacement. intros H. raise_cases H; done.
Qed.

Lemma y_coordinate_raises self x e :
  __calculate_y_coordinate libm self x = Raise e →
  e = ValueError_math_domain ∨ e = OverflowError_int_too_large
  ∨ e = OverflowError_result_range ∨ e = ZeroDivisionError_float.
Proof.
  unfold __calculate_y_coordinate. intros H. raise_cases H; auto.
  unfold float_truediv in H. case_match; [|done]. injection H as <-. auto.
Qed.

(** An error of the comprehension is the error of [__calculate_y_coordinate]
    at one of the sampled x. *)
Lemma sampling_raises self n e :
  mapM (λ x, y ← __calculate_y_coordinate libm self x; Ok (x, y)) (range n) = Raise e →
  ∃ x, 0 ≤ x < n ∧ __calculate_y_coordinate libm self x = Raise e.
Proof.
  intros (x & Hx%range_elem & H)%mapM_Raise. exists x. split; [done|].
  by apply bind_Raise in H as [H|(y & _ & [=])].
Qed.

(** X2. When the displacement has a value [d], [calculate_all_coordinates]
    raises "cannot convert float NaN to integer" exactly when [d] is a NaN
    and "cannot convert float infinity to integer" exactly when [d] is
    infinite, both from [math.ceil]; when [d] is finite, any error it raises
    comes from [__calculate_y_coordinate]: a domain error, an overflow or a
    division by zero. *)
Theorem sampling_ceiling_errors self d :
  __calculate_displacement libm self = Ok d →
  (calculate_all_coordinates libm self = Raise ValueError_nan_to_int ↔ is_nan d = true)
  ∧ (calculate_all_coordinates libm self = Raise OverflowError_inf_to_int
     ↔ is_infinity d = true)
  ∧ (is_finite d = true → ∀ e, calculate_all_coordinates libm self = Raise e →
     e = ValueError_math_domain ∨ e = OverflowError_int_too_large
     ∨ e = OverflowError_result_range ∨ e = ZeroDivisionError_float).
Proof.
  intros Hd. unfold calculate_all_coordinates. rewrite Hd; run.
  unfold is_finite.
  destruct (math_ceil_outcome d) as [[Hn ->]|[[Hi ->]|[Hf [n ->]]]]; run.
  - rewrite Hn. repeat split; try done.
    assert (is_infinity d = false) as ->; [|done].
    revert Hn. rewrite is_nan_Prim2SF, is_infinity_Prim2SF. by destruct (Prim2SF d).
  - rewrite Hi. assert (is_nan d = false) as ->.
    { revert Hi. rewrite is_nan_Prim2SF, is_infinity_Prim2SF. by destruct (Prim2SF d). }
    repeat split; done.
  - unfold is_finite in Hf. apply negb_true_iff, orb_false_iff in Hf as [-> ->].
    repeat split; try done.
    + intros (x & _ & H%y_coordinate_raises)%sampling_raises. by destruct H as [|[|[|]]].
    + intros (x & _ & H%y_coordinate_raises)%sampling_raises. by destruct H as [|[|[|]]].
    + intros _ e (x & _ & H%y_coordinate_raises)%sampling_raises. done.
Qed.

Lemma y_coordinate_first_zero_division self t den :
  math_tan libm (__angle self) = Ok t → denominator libm self = Ok den →
  (den =? 0)%float = true →
  __calculate_y_coordinate libm self 0 = Raise ZeroDivisionError_float.
Proof.
  intros Ht Hden Hz. apply zero_division_characterised.
  by exists t, 0%float, 0%float, den.
Qed.

(** X3. [calculate_all_coordinates] raises a division by zero if and only
    if the displacement is finite with a ceiling of at least 1, tan θ has a
    value and the denominator 2·v²·cos²θ evaluates to zero. The division by
    zero then occurs at the first sample, x = 0, although its numerator is
    zero too. *)
Theorem sampling_zero_division self :
  (calculate_all_coordinates libm self = Raise ZeroDivisionError_float ↔
   ∃ d n t den,
     __calculate_displacement libm self = Ok d ∧ math_ceil d = Ok n ∧ 1 ≤ n ∧
     math_tan libm (__angle self) = Ok t ∧
     denominator libm self = Ok den ∧ (den =? 0)%float = true)
  ∧ (calculate_all_coordinates libm self = Raise ZeroDivisionError_float ↔
     ∃ d n,
       __calculate_displacement libm self = Ok d ∧ math_ceil d = Ok n ∧ 1 ≤ n ∧
       __calculate_y_coordinate libm self 0 = Raise ZeroDivisionError_float).
Proof.
  assert (calculate_all_coordinates libm self = Raise ZeroDivisionError_float ↔
          ∃ d n t den,
            __calculate_displacement libm self = Ok d ∧ math_ceil d = Ok n ∧ 1 ≤ n ∧
            math_tan libm (__angle self) = Ok t ∧
            denominator libm self = Ok den ∧ (den =? 0)%float = true) as Hiff.
  { unfold calculate_all_coordinates. split.
    - intros [H|(d & Hd & [H|(n & Hn & H)]%bind_Raise)]%bind_Raise.
      + by apply displacement_no_zero_division in H.
      + by destruct (math_ceil_outcome d) as [[_ E]|[[_ E]|[_ [n E]]]];
          rewrite E in H.
      + apply sampling_raises in H as (x & Hx & H).
        apply zero_division_characterised in H
          as (t & _ & _ & den & Ht & _ & _ & Hden & Hz).
        exists d, n, t, den. repeat split; try done. lia.
    - intros (d & n & t & den & Hd & Hn & Hn1 & Ht & Hden & Hz).
      rewrite Hd; run. rewrite Hn; run.
      unfold range. destruct (Z.to_nat n) as [|k] eqn:E; [lia|].
      cbn [seq fmap list_fmap mapM]. change (Z.of_nat 0) with 0.
      by rewrite (y_coordinate_first_zero_division self t den Ht Hden Hz). }
  split; [done|]. rewrite Hiff. split.
  - intros (d & n & t & den & Hd & Hn & Hn1 & Ht & Hden & Hz).
    exists d, n. repeat split; try done.
    by eapply y_coordinate_first_zero_division.
  - intros (d & n & Hd & Hn & Hn1 & Hy).
    apply zero_division_characterised in Hy
      as (t & _ & _ & den & Ht & _ & _ & Hden & Hz).
    by exists d, n, t, den.
Qed.

Lemma displacement_zero_speed self h :
  py_is_zero (__speed self) = true →
  is_finite (__angle self) = true →
  returns (math_cos libm (__angle self)) →
  returns (math_sin libm (__angle self)) →
  PyFloat_AsDouble (__height self) = Ok h →
  (0 <=? h)%float = true →
  is_finite (2 * GRAVITATIONAL_ACCELERATION * h) = true →
  ∃ d, __calculate_displacement libm self = Ok d ∧ (d =? 0)%float = true.
Proof.
  intros Hz Hfin [c Hc] [s Hs] Hh Hh0 Hgh.
  destruct (py_is_zero_float _ Hz) as (v & Hv & Hv0).
  pose proof (math_1_finite _ _ _ Hc Hfin) as Hcf.
  pose proof (math_1_finite _ _ _ Hs Hfin) as Hsf.
  pose proof (float_mul_0_l v c Hv0 Hcf) as Hhc.
  pose proof (float_mul_0_l v s Hv0 Hsf) as Hvc.
  pose proof (float_add_0_l 0 (2 * GRAVITATIONAL_ACCELERATION * h) eq_refl) as Hd.
  assert ((0 <=? 0 + 2 * GRAVITATIONAL_ACCELERATION * h)%float = true) as Hd0.
  { rewrite (same_number_leb_0 _ _ Hd). apply float_mul_nonneg; [done..|].
    by apply is_finite_not_nan. }
  assert (is_finite (0 + 2 * GRAVITATIONAL_ACCELERATION * h) = true) as Hdf.
  { by rewrite is_finite_Prim2SF, (same_number_finite _ _ Hd), <- is_finite_Prim2SF. }
  pose proof (sqrt_finite _ Hd0 Hdf) as Hsq.
  set (r := PrimFloat.sqrt (0 + 2 * GRAVITATIONAL_ACCELERATION * h)) in *.
  assert (is_finite (v * s + r) = true) as Hsum.
  { by rewrite is_finite_Prim2SF, (same_number_finite _ _ (float_add_0_l _ r Hvc)),
      <- is_finite_Prim2SF. }
  exists (v * c * (v * s + r) / GRAVITATIONAL_ACCELERATION)%float. split.
  - unfold __calculate_displacement, py_mul_float, float_mul_py.
    rewrite Hc; run. rewrite Hv; run. rewrite Hs; run.
    rewrite (float_pow_2_zero _ Hvc); run. rewrite Hh; run.
    rewrite (math_sqrt_nonneg _ Hd0); run.
    apply float_truediv_G_returns.
  - apply float_div_0_l; [|done..]. by apply float_mul_0_l.
Qed.

(** X4. A projectile with a speed equal to zero, a finite angle at which
    cos and sin have a value, and a height h ≥ 0 for which 2·g·h does not
    overflow: the displacement is zero and [calculate_all_coordinates]
    returns the empty list without an error, although
    [__calculate_y_coordinate] would raise at every x. *)
Theorem zero_speed_no_samples self h :
  py_is_zero (__speed self) = true →
  is_finite (__angle self) = true →
  returns (math_cos libm (__angle self)) →
  returns (math_sin libm (__angle self)) →
  PyFloat_AsDouble (__height self) = Ok h →
  (0 <=? h)%float = true →
  is_finite (2 * GRAVITATIONAL_ACCELERATION * h) = true →
  (∃ d, __calculate_displacement libm self = Ok d ∧ (d =? 0)%float = true)
  ∧ calculate_all_coordinates libm self = Ok []
  ∧ ∀ x, raises (__calculate_y_coordinate libm self x).
Proof.
  intros Hz Hfin Hc Hs Hh Hh0 Hgh.
  destruct (displacement_zero_speed self h Hz Hfin Hc Hs Hh Hh0 Hgh) as (d & Hd & Hd0).
  split; [by exists d|]. split.
  - unfold calculate_all_coordinates. rewrite Hd; run.
    by rewrite (math_ceil_zero d Hd0).
  - intros x. by apply y_coordinate_zero_speed_raises.
Qed.

(** X5. The sample at x = 0 is the launch height: when the height h is not
    a NaN, tan θ is finite and the denominator 2·v²·cos²θ is neither zero nor
    a NaN, [__calculate_y_coordinate] at 0 returns a number equal to h. *)
Theorem first_sample_is_launch_height self h t den :
  PyFloat_AsDouble (__height self) = Ok h → is_nan h = false →
  math_tan libm (__angle self) = Ok t → is_finite t = true →
  denominator libm self = Ok den →
  (den =? 0)%float = false → is_nan den = false →
  ∃ y, __calculate_y_coordinate libm self 0 = Ok y ∧ (y =? h)%float = true.
Proof.
  intros Hh Hhn Ht Htf Hden Hdz Hdn.
  exists (h + t * 0 - GRAVITATIONAL_ACCELERATION * 0 / den)%float. split.
  - rewrite y_coordinate_steps. rewrite Ht; run.
    assert (float_mul_py t (PyInt 0) = Ok (t * 0)%float) as ->
      by (apply float_mul_py_int; by exists 0%float).
    run.
    assert (float_mul_py GRAVITATIONAL_ACCELERATION (PyInt (0 ^ 2))
            = Ok (GRAVITATIONAL_ACCELERATION * 0)%float) as ->
      by (apply float_mul_py_int; by exists 0%float).
    run. rewrite Hden; run. unfold float_truediv. rewrite Hdz; run.
    unfold py_add_float. rewrite Hh. by run.
  - assert ((t * 0 =? 0)%float = true) as H1 by (by apply float_mul_0_r).
    assert ((GRAVITATIONAL_ACCELERATION * 0 / den =? 0)%float = true) as H2.
    { apply float_div_0_l; [|done..]. by apply float_mul_0_r. }
    apply same_number_eqb; [|done].
    eapply same_number_trans; [by apply float_sub_0_r|]. by apply float_add_0_r.
Qed.

(** X6. A NaN is not an error: when the float value of the speed or of
    the height is a NaN (and cos θ, sin θ and the square of v·sinθ have a
    value), [__calculate_displacement] returns a NaN, and
    [calculate_all_coordinates] then raises "cannot convert float NaN to
    integer". *)
Theorem displacement_of_nan self v h c s sq :
  PyFloat_AsDouble (__speed self) = Ok v →
  PyFloat_AsDouble (__height self) = Ok h →
  is_nan v || is_nan h = true →
  math_cos libm (__angle self) = Ok c →
  math_sin libm (__angle self) = Ok s →
  float_pow_2 libm (v * s) = Ok sq →
  (∃ d, __calculate_displacement libm self = Ok d ∧ is_nan d = true)
  ∧ calculate_all_coordinates libm self = Raise ValueError_nan_to_int.
Proof.
  intros Hv Hh Hnan Hc Hs Hsq.
  assert (is_nan (sq + 2 * GRAVITATIONAL_ACCELERATION * h) = true) as Hd.
  { apply orb_true_iff in Hnan as [Hn|Hn].
    - apply float_add_nan_l. eapply float_pow_2_nan; [done|]. by apply float_mul_nan_l.
    - by apply float_add_nan_r, float_mul_nan_r. }
  destruct (math_sqrt_nan _ Hd) as [Hsqrt Hr].
  set (r := PrimFloat.sqrt _) in *.
  assert (__calculate_displacement libm self
          = Ok (v * c * (v * s + r) / GRAVITATIONAL_ACCELERATION)%float) as E.
  { unfold __calculate_displacement, py_mul_float, float_mul_py.
    rewrite Hc; run. rewrite Hv; run. rewrite Hs; run. rewrite Hsq; run.
    rewrite Hh; run. rewrite Hsqrt; run. apply float_truediv_G_returns. }
  assert (is_nan (v * c * (v * s + r) / GRAVITATIONAL_ACCELERATION) = true) as Hn.
  { by apply float_div_nan_l, float_mul_nan_r, float_add_nan_r. }
  split; [by eexists|].
  unfold calculate_all_coordinates. rewrite E; run.
  unfold math_ceil. revert Hn. rewrite is_nan_Prim2SF. by destruct (Prim2SF _).
Qed.

(** The samples of a trajectory: the one at position i has x = i. *)
Lemma samples_x self pts :
  calculate_all_coordinates libm self = Ok pts →
  pts.*1 = range (Z.of_nat (length pts)).
Proof.
  unfold calculate_all_coordinates.
  intros (d & _ & (n & _ & H%mapM_Ok_inv)%bind_Ok)%bind_Ok.
  assert (length pts = Z.to_nat n) as Hlen.
  { rewrite <- (Forall2_length _ _ _ H). unfold range.
    by rewrite length_fmap, length_seq. }
  rewrite Hlen. unfold range. rewrite Nat2Z.id. fold (range n).
  apply list_eq. intros i. rewrite list_lookup_fmap.
  destruct (decide (i < Z.to_nat n)%nat) as [Hi|Hi].
  - destruct (Forall2_lookup_l _ _ _ i _ H (range_lookup n i Hi)) as (p & Hp & Hf).
    apply bind_Ok in Hf as (y & _ & [= <-]).
    by rewrite Hp, range_lookup.
  - rewrite !lookup_ge_None_2; [done| |lia].
    unfold range. rewrite length_fmap, length_seq. lia.
Qed.

End KinematicsEdgeCases.

(** *** At the sample trajectories *)

(** From 5 m below the reference plane: a domain error. *)
Lemma displacement_raises_witness :
  Projectile.__calculate_displacement libm_at_zero sunk_projectile
  = Raise ValueError_math_domain
  ∧ (ValueError_math_domain = ValueError_math_domain
     ∨ ValueError_math_domain = OverflowError_int_too_large
     ∨ ValueError_math_domain = OverflowError_result_range).
Proof.
  split; [reflexivity|].
  apply (displacement_raises libm_at_zero sunk_projectile). reflexivity.
Defined.

(** [Projectile(2.0 ** 1023, 2.0 ** 100, 0)]: the displacement is [inf] and
    sampling is the overflow error of [math.ceil]. *)
Lemma sampling_ceiling_errors_witness :
  Projectile.calculate_all_coordinates libm_at_zero fast_projectile
  = Raise OverflowError_inf_to_int.
Proof.
  apply (proj2 (proj1 (proj2 (sampling_ceiling_errors
                                libm_at_zero fast_projectile infinity eq_refl)))).
  reflexivity.
Defined.

(** [Projectile(0, 5, 0)]: no sample and no error. *)
Lemma zero_speed_no_samples_witness :
  (∃ d, Projectile.__calculate_displacement libm_at_zero still_projectile = Ok d
        ∧ (d =? 0)%float = true)
  ∧ Projectile.calculate_all_coordinates libm_at_zero still_projectile = Ok []
  ∧ ∀ x, raises (Projectile.__calculate_y_coordinate libm_at_zero still_projectile x).
Proof.
  apply (zero_speed_no_samples libm_at_zero still_projectile 5);
    try reflexivity; by eexists.
Defined.

(** [Projectile(1, 5, 0)] starts at 5 m. *)
Lemma first_sample_is_launch_height_witness :
  ∃ y, Projectile.__calculate_y_coordinate libm_at_zero unit_projectile 0 = Ok y
       ∧ (y =? 5)%float = true.
Proof.
  apply (first_sample_is_launch_height libm_at_zero unit_projectile 5 0 2);
    reflexivity.
Defined.

(** [Projectile(float('nan'), 5, 0)]: a displacement of [nan]. *)
Lemma displacement_of_nan_witness :
  (∃ d, Projectile.__calculate_displacement libm_at_zero nan_projectile = Ok d
        ∧ is_nan d = true)
  ∧ Projectile.calculate_all_coordinates libm_at_zero nan_projectile
    = Raise ValueError_nan_to_int.
Proof.
  apply (displacement_of_nan libm_at_zero nan_projectile nan 5 1 0 (nan * 0));
    reflexivity.
Defined.

(** ** Projectile: reading an angle that is not finite *)

Section AngleEdgeCases.
Import Projectile.

(** X7. The angle setter and the constructor accept every float, NaN and
    the infinities included; it is the getter that fails on them. Setting the
    angle to a float [d] and reading it back raises "cannot convert float NaN
    to integer" exactly when [d] is a NaN and "cannot convert float infinity
    to integer" when [d] is infinite; it returns whenever
    degrees(radians(d)) is finite and raises no other error. Reading the
    angle of a projectile constructed with [d] behaves the same. *)
Theorem angle_reading_errors self speed height d :
  (set_get_angle 0 self (PyFloat d) = Raise ValueError_nan_to_int ↔ is_nan d = true)
  ∧ (is_infinity d = true →
     set_get_angle 0 self (PyFloat d) = Raise OverflowError_inf_to_int)
  ∧ (is_finite (math_degrees (d * degToRad)) = true →
     returns (set_get_angle 0 self (PyFloat d)))
  ∧ (∀ e, set_get_angle 0 self (PyFloat d) = Raise e →
       e = ValueError_nan_to_int ∨ e = OverflowError_inf_to_int)
  ∧ (p ← __init__ speed height (PyFloat d); angle p) = set_get_angle 0 self (PyFloat d).
Proof.
  rewrite set_get_angle_reading.
  change (math_radians (PyFloat d)) with (Ok (d * degToRad)%float).
  change (__init__ speed height (PyFloat d))
    with (Ok {| __speed := speed; __height := height; __angle := (d * degToRad)%float |}).
  run. unfold angle. cbn [__angle].
  assert (is_nan (math_degrees (d * degToRad)) = is_nan d) as Hnan.
  { unfold math_degrees.
    by rewrite (float_mul_finite_nan _ radToDeg false 8063664102031864 (-47)),
      (float_mul_finite_nan _ degToRad false 5030569068109113 (-58)). }
  split; [|split; [|split; [|split]]].
  - rewrite <- Hnan, is_nan_Prim2SF. unfold py_round.
    by destruct (Prim2SF _).
  - intros Hi.
    assert (is_infinity (math_degrees (d * degToRad)) = true) as H.
    { unfold math_degrees.
      apply (float_mul_finite_inf _ radToDeg false 8063664102031864 (-47)); [done|].
      by apply (float_mul_finite_inf _ degToRad false 5030569068109113 (-58)). }
    revert H. rewrite is_infinity_Prim2SF. unfold py_round. by destruct (Prim2SF _).
  - intros H. by apply py_round_finite.
  - intros e. apply py_round_raises.
  - done.
Qed.

End AngleEdgeCases.

(** ** Graph: negative coordinates, errors and the order of the points *)

Section GraphEdgeCases.
Import Graph.

Lemma list_index_Ok len i j :
  list_index len i = Ok j ↔
  - Z.of_nat len ≤ i < Z.of_nat len ∧ j = wrap_index len i.
Proof.
  unfold list_index, wrap_index.
  destruct (Z.ltb_spec i 0);
    [destruct (Z.ltb_spec (i + Z.of_nat len) 0)|destruct (Z.ltb_spec i 0)];
    try destruct (Z.leb_spec (Z.of_nat len) (i + Z.of_nat len));
    try destruct (Z.leb_spec (Z.of_nat len) i);
    simpl; split; try (intros [= <-]); try (intros [? ->]); try done; try lia.
Qed.

Lemma wrap_index_lt len i :
  - Z.of_nat len ≤ i < Z.of_nat len → (wrap_index len i < len)%nat.
Proof. unfold wrap_index. destruct (Z.ltb_spec i 0); lia. Qed.

Lemma mark_wraps h w g x y :
  grid_shape h w g →
  - Z.of_nat h ≤ -1 - y < Z.of_nat h → - Z.of_nat w ≤ x < Z.of_nat w →
  ∃ row,
    g !! wrap_index h (-1 - y) = Some row ∧
    mark g (x, y)
    = Ok (<[wrap_index h (-1 - y) := <[wrap_index w x := PROJECTILE]> row]> g).
Proof.
  intros [Hh Hw] Hy Hx. unfold mark, getitem, setitem.
  assert (list_index (length g) (-1 - y) = Ok (wrap_index h (-1 - y))) as ->
    by (apply list_index_Ok; by rewrite Hh).
  run.
  assert (wrap_index h (-1 - y) < length g)%nat as Hlt
    by (rewrite Hh; by apply wrap_index_lt).
  destruct (lookup_lt_is_Some_2 g _ Hlt) as [row Hrow].
  exists row. split; [done|]. rewrite Hrow. cbv beta iota. run.
  assert (list_index (length row) x = Ok (wrap_index w x)) as ->.
  { apply list_index_Ok. by rewrite (Forall_lookup_1 _ _ _ _ Hw Hrow). }
  by run.
Qed.


(** Marking the points of [l] one after the other on a grid [g], whatever
    the sign of their coordinates, as long as every index is in range. *)
Lemma for_each_mark_wraps h w g l :
  grid_shape h w g →
  (∀ x y, (x, y) ∈ l →
     - Z.of_nat h ≤ -1 - y < Z.of_nat h ∧ - Z.of_nat w ≤ x < Z.of_nat w) →
  ∃ g',
    for_each mark l g = Ok g' ∧ grid_shape h w g' ∧
    ∀ r c, (r < h)%nat → (c < w)%nat →
      cell g' r c =
      if decide (Exists (lands_on h w r c) l) then Some PROJECTILE else cell g r c.
Proof.
  revert g. induction l as [|[x y] l IH]; intros g Hg Hl.
  - exists g. split; [done|]. split; [done|]. intros r c _ _.
    case_decide as Hin; [by apply Exists_nil in Hin|done].
  - destruct (Hl x y ltac:(left)) as [Hy Hx].
    destruct (mark_wraps h w g x y Hg Hy Hx) as (row & Hrow & Hmark).
    pose proof (mark_shape h w g (x, y) _ Hg Hmark) as Hg1.
    destruct (IH _ Hg1) as (g' & Hfor & Hg' & Hcell).
    { intros x' y' Hin. apply Hl. by right. }
    exists g'. split; [|split; [done|]].
    { cbn [for_each]. rewrite Hmark. by run. }
    intros r c Hr Hc. rewrite (Hcell r c Hr Hc).
    destruct Hg as [_ Hw].
    rewrite cell_insert;
      [|done|rewrite (Forall_lookup_1 _ _ _ _ Hw Hrow); by apply wrap_index_lt].
    destruct (decide (Exists (lands_on h w r c) l)) as [Hin|Hin];
      destruct (decide (r = wrap_index h (-1 - y) ∧ c = wrap_index w x)) as [Heq|Hne];
      destruct (decide (Exists (lands_on h w r c) ((x, y) :: l))) as [Hin'|Hin'];
      try done.
    all: try (exfalso; apply Hin'; by right).
    + exfalso. apply Hin'. left. destruct Heq as [-> ->]. by split.
    + apply Exists_cons in Hin' as [[Hr' Hc']|?]; [|done].
      exfalso. apply Hne. simpl in *. by split.
Qed.


(** The maxima that [create_trajectory] computes. *)
Lemma maxima_computed rc xm ym :
  is_maximum xm rc.*1 → is_maximum ym rc.*2 →
  fst <$> py_max fst rc = Ok xm ∧ snd <$> py_max snd rc = Ok ym.
Proof.
  intros Hxm Hym.
  assert (rc ≠ []) as Hne.
  { destruct Hxm as [Hin _]. intros ->. by apply elem_of_nil in Hin. }
  destruct (py_max_is_maximum fst rc Hne) as (px & -> & Hx).
  destruct (py_max_is_maximum snd rc Hne) as (py & -> & Hy).
  run. by rewrite (is_maximum_unique _ _ _ Hx Hxm), (is_maximum_unique _ _ _ Hy Hym).
Qed.


(** The condition under which every index of [create_trajectory] is in
    range. *)
Lemma in_range_indices rc xm ym :
  is_maximum xm rc.*1 → is_maximum ym rc.*2 →
  (∀ x y, (x, y) ∈ rc → - (xm + 1) ≤ x ∧ - (ym + 1) ≤ y) ↔
  (∀ x y, (x, y) ∈ rc →
     - Z.of_nat (Z.to_nat (ym + 1)) ≤ -1 - y < Z.of_nat (Z.to_nat (ym + 1)) ∧
     - Z.of_nat (Z.to_nat (xm + 1)) ≤ x < Z.of_nat (Z.to_nat (xm + 1))).
Proof.
  intros [Hxin Hxm] [Hyin Hym].
  assert (∀ x y, (x, y) ∈ rc → x ≤ xm ∧ y ≤ ym) as Hle.
  { intros x y Hin. split; [apply Hxm|apply Hym]; apply list_elem_of_fmap;
      by exists (x, y). }
  apply list_elem_of_fmap in Hxin as ([x1 y1] & -> & Hin1).
  apply list_elem_of_fmap in Hyin as ([x2 y2] & -> & Hin2). simpl in *.
  split; intros H x y Hin.
  - destruct (H x y Hin), (H _ _ Hin1), (H _ _ Hin2), (Hle x y Hin). lia.
  - destruct (H x y Hin) as [? ?], (Hle x y Hin). lia.
Qed.

Lemma matrix_list_wraps self rc xm ym :
  rounded_coords self = Ok rc →
  is_maximum xm rc.*1 → is_maximum ym rc.*2 →
  (∀ x y, (x, y) ∈ rc → - (xm + 1) ≤ x ∧ - (ym + 1) ≤ y) →
  ∃ grid,
    matrix_list self = Ok grid ∧
    grid_shape (Z.to_nat (ym + 1)) (Z.to_nat (xm + 1)) grid ∧
    ∀ r c, (r < Z.to_nat (ym + 1))%nat → (c < Z.to_nat (xm + 1))%nat →
      cell grid r c =
      Some (if decide (Exists (lands_on (Z.to_nat (ym + 1)) (Z.to_nat (xm + 1)) r c) rc)
            then PROJECTILE else lit " ").
Proof.
  intros Hrc Hxm Hym Hin.
  destruct (maxima_computed rc xm ym Hxm Hym) as [Ex Ey].
  destruct (for_each_mark_wraps (Z.to_nat (ym + 1)) (Z.to_nat (xm + 1))
              (replicate (Z.to_nat (ym + 1)) (replicate (Z.to_nat (xm + 1)) (lit " ")))
              rc (grid_shape_replicate _ _ _)) as (g & Hg & Hshape & Hcell).
  { by apply in_range_indices. }
  exists g. split; [|split; [done|]].
  - unfold matrix_list. rewrite Hrc; run. rewrite Ex, Ey; by run.
  - intros r c Hr Hc. rewrite (Hcell r c Hr Hc), cell_replicate by done.
    by case_decide.
Qed.


(** A grid with at least one row, whose cells are one code point each, is
    drawn without error. *)
Lemma draw_grid_text h w grid :
  grid_shape h w grid → (0 < h)%nat →
  Forall (Forall (λ s, s = PROJECTILE ∨ s = lit " ")) grid →
  draw grid = Ok (grid_text (Z.of_nat w) grid).
Proof.
  intros Hshape Hh Hcells. destruct h as [|h]; [lia|].
  apply (draw_spec h w); [done|].
  eapply Forall_impl; [done|]. intros row Hrow.
  eapply Forall_impl; [done|]. by intros s [-> | ->].
Qed.

(** The plot, whatever the sign of the rounded coordinates, as long as every
    index is in range. *)
Lemma plot_spec self rc xm ym :
  rounded_coords self = Ok rc →
  is_maximum xm rc.*1 → is_maximum ym rc.*2 →
  (∀ x y, (x, y) ∈ rc → - (xm + 1) ≤ x ∧ - (ym + 1) ≤ y) →
  ∃ grid,
    matrix_list self = Ok grid ∧
    create_trajectory self = Ok (grid_text (xm + 1) grid) ∧
    grid_shape (Z.to_nat (ym + 1)) (Z.to_nat (xm + 1)) grid ∧
    0 ≤ xm ∧ 0 ≤ ym ∧
    ∀ r c, (r < Z.to_nat (ym + 1))%nat → (c < Z.to_nat (xm + 1))%nat →
      cell grid r c =
      Some (if decide (Exists (lands_on (Z.to_nat (ym + 1)) (Z.to_nat (xm + 1)) r c) rc)
            then PROJECTILE else lit " ").
Proof.
  intros Hrc Hxm Hym Hin.
  destruct (matrix_list_wraps self rc xm ym Hrc Hxm Hym Hin)
    as (g & Hg & Hshape & Hcell).
  assert (0 ≤ xm ∧ 0 ≤ ym) as [Hxm0 Hym0].
  { destruct Hxm as [([x1 y1] & -> & Hin1)%list_elem_of_fmap _].
    destruct Hym as [([x2 y2] & -> & Hin2)%list_elem_of_fmap _].
    destruct (Hin _ _ Hin1), (Hin _ _ Hin2). simpl in *. lia. }
  exists g. split; [done|]. split; [|done].
  unfold create_trajectory. rewrite Hg; run.
  rewrite (draw_grid_text _ _ g Hshape); [by rewrite Z2Nat.id by lia|lia|].
  eapply grid_row_cells; [done|]. intros r c Hr Hc. eexists. split; [by apply Hcell|].
  case_decide; auto.
Qed.

(** X8. Points below the axis are not rejected: they wrap around. Let
    [rc] be the rounded points and [xm], [ym] the greatest rounded x and y.
    If every rounded point has x ≥ −(xm + 1) and y ≥ −(ym + 1), negative
    ones included, [create_trajectory] returns the text of a grid of ym + 1
    rows of xm + 1 cells, in which the cell at row r, column c holds the
    marker exactly when some rounded point (x, y) has its Python indices
    [-1 - y] and [x] denote r and c. A point with x ≥ 0 and y ≥ 0 is at row
    ym − y; a point with x ≥ 0 and y < 0 is at row −1 − y, counted from the
    top: the point (x, −1) is drawn on the top row, the row of y = ym. *)
Theorem negative_points_wrap_around self rc xm ym :
  rounded_coords self = Ok rc →
  is_maximum xm rc.*1 → is_maximum ym rc.*2 →
  (∀ x y, (x, y) ∈ rc → - (xm + 1) ≤ x ∧ - (ym + 1) ≤ y) →
  ∃ grid,
    matrix_list self = Ok grid ∧
    create_trajectory self = Ok (grid_text (xm + 1) grid) ∧
    length grid = Z.to_nat (ym + 1) ∧
    Forall (λ row, length row = Z.to_nat (xm + 1)) grid ∧
    (∀ r c, (r < Z.to_nat (ym + 1))%nat → (c < Z.to_nat (xm + 1))%nat →
       cell grid r c =
       Some (if decide (Exists (lands_on (Z.to_nat (ym + 1)) (Z.to_nat (xm + 1)) r c) rc)
             then PROJECTILE else lit " ")) ∧
    (∀ x y, (x, y) ∈ rc → 0 ≤ x → 0 ≤ y →
       cell grid (Z.to_nat (ym - y)) (Z.to_nat x) = Some PROJECTILE) ∧
    (∀ x y, (x, y) ∈ rc → 0 ≤ x → y < 0 →
       cell grid (Z.to_nat (-1 - y)) (Z.to_nat x) = Some PROJECTILE).
Proof.
  intros Hrc Hxm Hym Hin.
  destruct (plot_spec self rc xm ym Hrc Hxm Hym Hin)
    as (g & Hg & Hplot & [Hh Hw] & _ & _ & Hcell).
  exists g. repeat split; try done.
  - intros x y Hp Hx Hy.
    pose proof (proj1 (in_range_indices rc xm ym Hxm Hym) Hin x y Hp) as [Hry Hrx].
    rewrite Hcell by lia. rewrite decide_True; [done|].
    apply Exists_exists. exists (x, y). split; [done|]. unfold lands_on, wrap_index.
    simpl. destruct (Z.ltb_spec (-1 - y) 0), (Z.ltb_spec x 0); lia.
  - intros x y Hp Hx Hy.
    pose proof (proj1 (in_range_indices rc xm ym Hxm Hym) Hin x y Hp) as [Hry Hrx].
    rewrite Hcell by lia. rewrite decide_True; [done|].
    apply Exists_exists. exists (x, y). split; [done|]. unfold lands_on, wrap_index.
    simpl. destruct (Z.ltb_spec (-1 - y) 0), (Z.ltb_spec x 0); lia.
Qed.

(** Once the points are rounded and there is at least one, the only error
    left is an index out of range. *)
Lemma create_trajectory_raises_after_rounding self rc e :
  rounded_coords self = Ok rc → rc ≠ [] →
  create_trajectory self = Raise e → e = IndexError_list.
Proof.
  intros Hrc Hne. unfold create_trajectory.
  intros [H|(g & _ & H)]%bind_Raise; [|by apply draw_raises in H].
  unfold matrix_list in H. rewrite Hrc in H. run_in H.
  destruct rc as [|q rc]; [done|].
  unfold py_max in H. run_in H. by apply for_each_mark_raises in H.
Qed.





Lemma rounded_coords_returns self :
  returns (rounded_coords self) ↔
  Forall (λ p, is_finite p.2 = true) (__coordinates self).
Proof.
  unfold rounded_coords. split.
  - intros [rc H%mapM_Ok_inv]. apply Forall_forall. intros [x y] Hin.
    apply list_elem_of_lookup_1 in Hin as [i Hi].
    destruct (Forall2_lookup_l _ _ _ _ _ H Hi) as (q & _ & Hf).
    simpl in Hf. apply bind_Ok in Hf as (ry & Hry & _).
    apply py_round_finite. by exists ry.
  - intros Hfin.
    destruct (mapM_Ok (λ '(x, y), ry ← py_round y; Ok (int_round x, ry))
                (__coordinates self)) as (rc & Hrc & _); [|by exists rc].
    eapply Forall_impl; [done|]. intros [x y] [ry Hy]%py_round_finite.
    simpl in *. rewrite Hy. by eexists.
Qed.

Lemma rounded_coords_x self rc :
  rounded_coords self = Ok rc → rc.*1 = (__coordinates self).*1.
Proof.
  intros H%mapM_Ok_inv. induction H as [|[x y] q l k Hq _ IH]; [done|].
  simpl in Hq. apply bind_Ok in Hq as (ry & _ & [= <-]). simpl. by f_equal.
Qed.



(** X11. The errors of [create_trajectory], all of them. It raises the
    error of [round] on a NaN or on an infinity if and only if the y of some
    point is not finite; it raises the error of [max] on an empty sequence if
    and only if there is no point; and any error it raises is one of these
    two, or an index out of range. *)
Theorem create_trajectory_errors self :
  ((create_trajectory self = Raise ValueError_nan_to_int
    ∨ create_trajectory self = Raise OverflowError_inf_to_int)
   ↔ Exists (λ p, is_finite p.2 = false) (__coordinates self))
  ∧ (create_trajectory self = Raise ValueError_max_empty ↔ __coordinates self = [])
  ∧ (∀ e, create_trajectory self = Raise e →
       e = ValueError_nan_to_int ∨ e = OverflowError_inf_to_int
       ∨ e = ValueError_max_empty ∨ e = IndexError_list).
Proof.
  destruct (decide (Forall (λ p, is_finite p.2 = true) (__coordinates self)))
    as [Hall|Hex].
  - assert (¬ Exists (λ p, is_finite p.2 = false) (__coordinates self)) as Hnex.
    { intros (p & Hp & Hf)%Exists_exists. rewrite Forall_forall in Hall.
      by rewrite (Hall p Hp) in Hf. }
    destruct (proj2 (rounded_coords_returns self) Hall) as [rc Hrc].
    pose proof (rounded_coords_length self rc Hrc) as Hlen.
    destruct (decide (rc = [])) as [->|Hne].
    + assert (create_trajectory self = Raise ValueError_max_empty) as E.
      { unfold create_trajectory, matrix_list. by rewrite Hrc. }
      rewrite E. destruct (__coordinates self); [|done].
      repeat split; try done; try (by intros [|]); auto.
      intros e [= <-]. auto.
    + pose proof (λ e, create_trajectory_raises_after_rounding self rc e Hrc Hne)
        as Hidx.
      repeat split; try done.
      * by intros [H%Hidx|H%Hidx].
      * by intros H%Hidx.
      * intros E. rewrite E in Hlen. by destruct rc.
      * intros e ->%Hidx. auto.
  - apply not_Forall_Exists in Hex; [|apply _].
    assert (Exists (λ p, is_finite p.2 = false) (__coordinates self)) as Hex'.
    { eapply Exists_impl; [done|]. intros p Hp. simpl in Hp.
      by destruct (is_finite p.2). }
    destruct (mapM_Exists_raises (λ '(x, y), ry ← py_round y; Ok (int_round x, ry))
                (__coordinates self)) as [e He].
    { eapply Exists_impl; [exact Hex'|]. intros [x y] Hy. simpl in Hy.
      destruct (returns_or_raises (py_round y)) as [Hr|[e He]].
      - apply py_round_finite in Hr. congruence.
      - exists e. by rewrite He. }
    fold (rounded_coords self) in He.
    assert (create_trajectory self = Raise e) as E.
    { unfold create_trajectory, matrix_list. by rewrite He. }
    rewrite E. apply rounded_coords_raises in He.
    repeat split; try done.
    + destruct He as [-> | ->]; auto.
    + intros [= ->]. by destruct He.
    + intros Hnil. rewrite Hnil in Hex'. by apply Exists_nil in Hex'.
    + intros e' [= <-]. destruct He as [-> | ->]; auto.
Qed.

(** *** The coordinate table, line by line *)

Lemma uint_digits_no_line_break u : 10%N ∉ uint_digits u.
Proof.
  induction u as [|u IH|u IH|u IH|u IH|u IH|u IH|u IH|u IH|u IH|u IH]; simpl;
    [apply not_elem_of_nil|..];
    (intros [?|?]%elem_of_cons; [done|by apply IH]).
Qed.

Lemma str_of_int_no_line_break z : 10%N ∉ str_of_int z.
Proof.
  unfold str_of_int. destruct z as [|p|p]; [apply uint_digits_no_line_break..|].
  rewrite elem_of_app. intros [?%list_elem_of_singleton|?]; [done|].
  by eapply uint_digits_no_line_break.
Qed.

Lemma sign_no_line_break (s : bool) : 10%N ∉ (if s then lit "-" else []).
Proof.
  destruct s; simpl; [|apply not_elem_of_nil]. by intros ?%list_elem_of_singleton.
Qed.

Lemma digit_code_no_line_break d : digit_code d ≠ 10%N.
Proof. unfold digit_code. lia. Qed.

Lemma format_2f_no_line_break y : 10%N ∉ format_2f y.
Proof.
  unfold format_2f. destruct (Prim2SF y) as [s|s| |s m e].
  - rewrite elem_of_app. intros [H|H]; [by eapply sign_no_line_break|].
    simpl in H. repeat (apply elem_of_cons in H as [H|H]; [done|]).
    by apply elem_of_nil in H.
  - rewrite elem_of_app. intros [H|H]; [by eapply sign_no_line_break|].
    simpl in H. repeat (apply elem_of_cons in H as [H|H]; [done|]).
    by apply elem_of_nil in H.
  - simpl. intros H.
    repeat (apply elem_of_cons in H as [H|H]; [done|]). by apply elem_of_nil in H.
  - rewrite !elem_of_app. intros [H|[H|[H|H]]].
    + by eapply sign_no_line_break.
    + by eapply str_of_int_no_line_break.
    + simpl in H. by apply list_elem_of_singleton in H.
    + apply elem_of_cons in H as [H|H]; [by eapply digit_code_no_line_break|].
      apply list_elem_of_singleton in H. by eapply digit_code_no_line_break.
Qed.

Lemma line_breaks_app s t : line_breaks (s ++ t) = (line_breaks s + line_breaks t)%nat.
Proof. apply count_occ_app. Qed.

Lemma line_breaks_none s : 10%N ∉ s → line_breaks s = 0%nat.
Proof. intros Hs. apply count_occ_not_In. by rewrite <- list_elem_of_In. Qed.

Lemma rjust_no_line_break w s : 10%N ∉ s → 10%N ∉ rjust w s.
Proof.
  intros Hs. unfold rjust. rewrite elem_of_app. intros [H|H]; [|done].
  by apply elem_of_replicate in H as [? _].
Qed.

Lemma table_row_line_breaks p : line_breaks (table_row p) = 1%nat.
Proof.
  unfold table_row. rewrite !line_breaks_app.
  rewrite (line_breaks_none (rjust 3 _))
    by apply rjust_no_line_break, str_of_int_no_line_break.
  rewrite (line_breaks_none (rjust 7 _))
    by apply rjust_no_line_break, format_2f_no_line_break.
  done.
Qed.

Lemma table_rows_line_breaks coords :
  line_breaks (concat (table_row <$> coords)) = length coords.
Proof.
  induction coords as [|q coords IH]; [done|].
  cbn [fmap list_fmap concat length]. rewrite line_breaks_app, table_row_line_breaks.
  by f_equal.
Qed.

(** X12. The coordinate table has one line per point: the text holds
    exactly len(points) + 2 line breaks (the leading one, the header's and
    one per row), whatever the values, NaN and infinities included; a row
    holds one line break, its last code point, and at least 10 code points
    before it; appending a point to the sequence appends its row to the
    table. *)
Theorem table_line_breaks coords p :
  line_breaks (create_coordinates_table (__init__ coords)) = (length coords + 2)%nat
  ∧ create_coordinates_table (__init__ (coords ++ [p]))
    = create_coordinates_table (__init__ coords) ++ table_row p
  ∧ (∃ fields, table_row p = fields ++ newline ∧ (10%N ∉ fields)
               ∧ (10 ≤ length fields)%nat).
Proof.
  unfold create_coordinates_table. cbn [__coordinates __init__]. rewrite !table_fold.
  split; [|split].
  - rewrite line_breaks_app, table_rows_line_breaks.
    change (line_breaks _) with 2%nat. lia.
  - rewrite fmap_app, concat_app. cbn [fmap list_fmap concat].
    by rewrite app_nil_r, app_assoc.
  - exists (rjust 3 (str_of_int p.1) ++ rjust 7 (format_2f p.2)).
    split; [unfold table_row; by rewrite <- app_assoc|]. split.
    + rewrite elem_of_app. intros [H|H]; revert H; apply rjust_no_line_break;
        [apply str_of_int_no_line_break|apply format_2f_no_line_break].
    + rewrite length_app.
      destruct (rjust_spec 3 (str_of_int p.1)) as [-> _].
      destruct (rjust_spec 7 (format_2f p.2)) as [-> _]. lia.
Qed.

End GraphEdgeCases.

(** *** At sample plots *)

(** The points (0, −1) and (1, 2): the first one is drawn on the top row,
    beside the second. *)
Lemma negative_points_wrap_around_witness :
  ∃ grid,
    Graph.matrix_list (Graph.__init__ [(0, (-1)%float); (1, 2%float)]) = Ok grid ∧
    Graph.create_trajectory (Graph.__init__ [(0, (-1)%float); (1, 2%float)])
    = Ok (grid_text (1 + 1) grid) ∧
    length grid = 3%nat ∧
    Forall (λ row, length row = 2%nat) grid ∧
    (∀ r c, (r < 3)%nat → (c < 2)%nat →
       cell grid r c =
       Some (if decide (Exists (lands_on 3 2 r c) [(0, -1); (1, 2)])
             then PROJECTILE else lit " ")) ∧
    (∀ x y, (x, y) ∈ [(0, -1); (1, 2)] → 0 ≤ x → 0 ≤ y →
       cell grid (Z.to_nat (2 - y)) (Z.to_nat x) = Some PROJECTILE) ∧
    (∀ x y, (x, y) ∈ [(0, -1); (1, 2)] → 0 ≤ x → y < 0 →
       cell grid (Z.to_nat (-1 - y)) (Z.to_nat x) = Some PROJECTILE).
Proof.
  apply (negative_points_wrap_around
    (Graph.__init__ [(0, (-1)%float); (1, 2%float)])
    [(0, -1); (1, 2)] 1 2 eq_refl
    ltac:(split; [simpl; repeat constructor|intros z H; simpl in H; elem_cases H; lia])
    ltac:(split; [simpl; repeat constructor|intros z H; simpl in H; elem_cases H; lia])
    ltac:(intros x y H; elem_cases H; injection H as -> ->; lia)).
Defined.



(** ** From the trajectory to the plot, continued *)

Lemma range_maximum n : 0 < n → is_maximum (n - 1) (range n).
Proof.
  intros Hn. split.
  - apply list_elem_of_lookup. exists (Z.to_nat (n - 1)).
    rewrite range_lookup by lia. f_equal. lia.
  - intros z Hz%range_elem. lia.
Qed.

(** X13. The plot of a sampled trajectory. Let [pts] be the samples of
    [calculate_all_coordinates], at least one, [rc] their rounding and [ym]
    the greatest rounded y. If no rounded y is below −(ym + 1),
    [create_trajectory] returns the text of a grid of ym + 1 rows with one
    column per sample, and every column holds at least one marker. *)
Theorem sampled_plot_columns libm self pts rc ym :
  Projectile.calculate_all_coordinates libm self = Ok pts → pts ≠ [] →
  Graph.rounded_coords (Graph.__init__ pts) = Ok rc →
  is_maximum ym rc.*2 →
  (∀ y, y ∈ rc.*2 → - (ym + 1) ≤ y) →
  ∃ grid,
    Graph.matrix_list (Graph.__init__ pts) = Ok grid ∧
    Graph.create_trajectory (Graph.__init__ pts)
    = Ok (grid_text (Z.of_nat (length pts)) grid) ∧
    length grid = Z.to_nat (ym + 1) ∧
    Forall (λ row, length row = length pts) grid ∧
    ∀ c, (c < length pts)%nat →
      ∃ r, (r < Z.to_nat (ym + 1))%nat ∧ cell grid r c = Some PROJECTILE.
Proof.
  intros Hpts Hne Hrc Hym Hlow.
  pose proof (samples_x libm self pts Hpts) as Hx.
  pose proof (rounded_coords_x _ rc Hrc) as Hrx. simpl in Hrx. rewrite Hx in Hrx.
  set (n := Z.of_nat (length pts)) in *.
  assert (0 < n) as Hn by (destruct pts; [done|simpl in n; lia]).
  assert (is_maximum (n - 1) rc.*1) as Hxm by (rewrite Hrx; by apply range_maximum).
  assert (∀ x y, (x, y) ∈ rc → - (n - 1 + 1) ≤ x ∧ - (ym + 1) ≤ y) as Hin.
  { intros x y Hp. split.
    - assert (x ∈ range n) as Hr%range_elem; [|lia].
      rewrite <- Hrx. apply list_elem_of_fmap. by exists (x, y).
    - apply Hlow, list_elem_of_fmap. by exists (x, y). }
  destruct (plot_spec _ rc (n - 1) ym Hrc Hxm Hym Hin)
    as (g & Hg & Hplot & [Hh Hw] & _ & Hym0 & Hcell).
  replace (n - 1 + 1) with n in * by lia.
  replace (Z.to_nat n) with (length pts) in * by lia.
  exists g. repeat split; try done.
  intros c Hc.
  assert (rc.*1 !! c = Some (Z.of_nat c)) as Hc1.
  { rewrite Hrx. apply range_lookup. lia. }
  rewrite list_lookup_fmap in Hc1.
  destruct (rc !! c) as [[x y]|] eqn:E; [|done]. injection Hc1 as ->.
  apply list_elem_of_lookup_2 in E. destruct (Hin _ _ E) as [_ Hy].
  assert (y ≤ ym).
  { destruct Hym as [_ Hym]. apply Hym, list_elem_of_fmap. by exists (Z.of_nat c, y). }
  exists (wrap_index (Z.to_nat (ym + 1)) (-1 - y)).
  assert (wrap_index (Z.to_nat (ym + 1)) (-1 - y) < Z.to_nat (ym + 1))%nat as Hr
    by (apply wrap_index_lt; lia).
  split; [done|]. rewrite Hcell by done. rewrite decide_True; [done|].
  apply Exists_exists. exists (Z.of_nat c, y). split; [done|]. split; [done|].
  unfold wrap_index. simpl. destruct (Z.ltb_spec (Z.of_nat c) 0); lia.
Qed.

(** X14. A trajectory whose displacement is finite and at most zero gives
    the three outputs of [projectile_helper] as follows: no sample, a
    coordinate table that is the header alone, and for the plot the error of
    [max] on an empty sequence. *)
Theorem degenerate_trajectory_outputs libm self d :
  Projectile.__calculate_displacement libm self = Ok d →
  is_finite d = true → (d <=? 0)%float = true →
  ∃ pts,
    Projectile.calculate_all_coordinates libm self = Ok pts ∧ pts = [] ∧
    Graph.create_coordinates_table (Graph.__init__ pts)
    = newline ++ lit "  x      y" ++ newline ∧
    Graph.create_trajectory (Graph.__init__ pts) = Raise ValueError_max_empty.
Proof.
  intros Hd Hfin Hle. exists []. split; [|done].
  unfold Projectile.calculate_all_coordinates. rewrite Hd; run.
  destruct (math_ceil_outcome d) as [[Hn _]|[[Hi _]|[_ [n Hn]]]].
  - unfold is_finite in Hfin. by rewrite Hn in Hfin.
  - unfold is_finite in Hfin. rewrite Hi in Hfin. by destruct (is_nan d).
  - rewrite Hn; run. pose proof (math_ceil_nonpos d n Hn Hle).
    unfold range. by replace (Z.to_nat n) with 0%nat by lia.
Qed.

(** [Projectile(1, 5, 0)]: two samples, a grid of 6 rows and 2 columns with
    a marker in each column. *)
Lemma sampled_plot_columns_witness :
  ∃ grid,
    Graph.matrix_list
      (Graph.__init__ [(0, 5%float); (1, 0x1.851eb851eb84p-4%float)]) = Ok grid ∧
    Graph.create_trajectory
      (Graph.__init__ [(0, 5%float); (1, 0x1.851eb851eb84p-4%float)])
    = Ok (grid_text 2 grid) ∧
    length grid = 6%nat ∧
    Forall (λ row, length row = 2%nat) grid ∧
    ∀ c, (c < 2)%nat → ∃ r, (r < 6)%nat ∧ cell grid r c = Some PROJECTILE.
Proof.
  apply (sampled_plot_columns libm_at_zero unit_projectile
    [(0, 5%float); (1, 0x1.851eb851eb84p-4%float)] [(0, 5); (1, 0)] 5
    eq_refl ltac:(discriminate) eq_refl
    ltac:(split; [simpl; repeat constructor|intros z H; simpl in H; elem_cases H; lia])
    ltac:(intros z H; simpl in H; elem_cases H; lia)).
Defined.

(** [Projectile(0, 5, 0)]: nothing to tabulate and nothing to plot. *)
Lemma degenerate_trajectory_outputs_witness :
  ∃ pts,
    Projectile.calculate_all_coordinates libm_at_zero still_projectile = Ok pts ∧
    pts = [] ∧
    Graph.create_coordinates_table (Graph.__init__ pts)
    = newline ++ lit "  x      y" ++ newline ∧
    Graph.create_trajectory (Graph.__init__ pts) = Raise ValueError_max_empty.
Proof.
  apply (degenerate_trajectory_outputs libm_at_zero still_projectile 0);
    reflexivity.
Defined.
